(** * Game of Life engine: board, rules, registry, simulator, pattern codec

    A shallow embedding of the Python package [GameOfLife] (board.py,
    rules.py, metaprogramming.py, simulator.py, pattern_parser.py) and the
    properties of its natural-language design that can be stated over it.

    Python objects are mutable and passed by reference.  [Board] objects
    therefore live in a store (a list indexed by reference); a method body is
    a computation over the state of its receiver, and a function that handles
    several boards ([evolve], [copy], the simulator) is a computation over
    the store.  Both are instances of one state-and-exception monad [ST]:
    a raised exception aborts the rest of the computation and keeps the
    state reached at the point of the raise.

    Logging, timing ([performance_monitor]) and the call counter of
    [generation_counter] do not influence any value handled here and are
    left out. *)

From Stdlib Require Import String Ascii ZArith List Lia Bool.
From Stdlib Require Import DecimalString.
From stdpp Require Import base list.

Local Open Scope Z_scope.

(** ** Exceptions *)

(** The exception classes the package raises.  [InvalidDimensionError],
    [SimulationOverflowError] and [PatternParseError] come from
    exceptions.py; [IndexError], [ValueError] and [ZeroDivisionError] are
    Python built-ins.  [DanglingReference] is not a Python exception: it
    marks the use of a reference that is not in the store, which no
    computation started from a reference in the store reaches. *)
Inductive exn : Type :=
  | InvalidDimensionError
  | IndexError
  | ValueError
  | SimulationOverflowError
  | ZeroDivisionError
  | PatternParseError
  | DanglingReference.

Inductive result (A : Type) : Type :=
  | Ok (a : A)
  | Raise (e : exn).
Arguments Ok {A} a.
Arguments Raise {A} e.

(** ** The state-and-exception monad *)

Definition ST (S A : Type) : Type := S -> result A * S.

Definition ret {S A} (a : A) : ST S A := fun s => (Ok a, s).

Definition raise {S A} (e : exn) : ST S A := fun s => (Raise e, s).

Definition bind {S A B} (m : ST S A) (k : A -> ST S B) : ST S B :=
  fun s => match m s with
           | (Ok a, s') => k a s'
           | (Raise e, s') => (Raise e, s')
           end.

Definition get {S} : ST S S := fun s => (Ok s, s).
Definition put {S} (s : S) : ST S unit := fun _ => (Ok tt, s).

Declare Scope st_scope.
Delimit Scope st_scope with st.
Notation "x <- c1 ;; c2" := (bind c1 (fun x => c2))
  (at level 100, c1 at next level, right associativity) : st_scope.
Notation "c1 ;; c2" := (bind c1 (fun _ => c2))
  (at level 100, right associativity) : st_scope.
Local Open Scope st_scope.

(** [for x in l: body x] *)
Fixpoint for_each {S A} (l : list A) (body : A -> ST S unit) : ST S unit :=
  match l with
  | [] => ret tt
  | x :: l' => body x ;; for_each l' body
  end.

(** [acc = init; for x in l: acc = body acc x] *)
Fixpoint for_fold {S A B} (l : list A) (body : B -> A -> ST S B) (acc : B)
  : ST S B :=
  match l with
  | [] => ret acc
  | x :: l' => acc' <- body acc x ;; for_fold l' body acc'
  end.

(** Python's [range(n)]: empty when [n <= 0]. *)
Definition range (n : Z) : list Z := seqZ 0 n.

(** ** Python list indexing on integers *)

(** [l[i]]: a negative index counts from the end, an index outside the
    list raises [IndexError]. *)
Definition py_getitem {S A} (l : list A) (i : Z) : ST S A :=
  let j := if i <? 0 then i + Z.of_nat (length l) else i in
  if j <? 0 then raise IndexError
  else match l !! Z.to_nat j with
       | Some x => ret x
       | None => raise IndexError
       end.

(** [l[i] = x], giving the updated list. *)
Definition py_setitem {S A} (l : list A) (i : Z) (x : A) : ST S (list A) :=
  let j := if i <? 0 then i + Z.of_nat (length l) else i in
  if j <? 0 then raise IndexError
  else if Nat.ltb (Z.to_nat j) (length l) then ret (<[Z.to_nat j := x]> l)
  else raise IndexError.

(** ** board.py *)

Record Board : Type := mkBoard {
  width : Z;
  height : Z;
  grid : list (list Z);
  generation : Z
}.

Definition with_grid (g : list (list Z)) (b : Board) : Board :=
  mkBoard (width b) (height b) g (generation b).
Definition with_generation (n : Z) (b : Board) : Board :=
  mkBoard (width b) (height b) (grid b) n.

(** A reference to a board, and the store of all boards allocated so far. *)
Abbreviation ref := nat (only parsing).
Abbreviation heap := (list Board) (only parsing).

(** A method body runs on the state of its receiver. *)
Definition Method (A : Type) : Type := ST Board A.
(** A computation over the store. *)
Definition M (A : Type) : Type := ST heap A.

(** [r.method(...)]: run a method body on the object at [r], writing the
    receiver's state back whether the body returns or raises. *)
Definition call {A} (r : ref) (m : Method A) : M A :=
  fun h => match h !! r with
           | Some b => let (res, b') := m b in (res, <[r := b']> h)
           | None => (Raise DanglingReference, h)
           end.

(** Allocation of a new object. *)
Definition alloc (b : Board) : M ref := fun h => (Ok (length h), h ++ [b]).

(** [validate_grid] raises [ValueError] when the receiver has no [grid]
    attribute or its [grid] is [None].  A [Board] record always carries a
    grid (the constructor assigns it and no method removes it), so on this
    type the guard always passes and the decorator is the identity. *)
Definition validate_grid {A} (m : Method A) : Method A := m.

Definition in_bounds (self : Board) (row col : Z) : bool :=
  (0 <=? row) && (row <? height self) && (0 <=? col) && (col <? width self).

(** [Board.__init__]; the rows of a new grid are all zero. *)
Definition Board_init (width height : Z) : M ref :=
  if (width <=? 0) || (height <=? 0) then raise InvalidDimensionError
  else if (width >? 1000) || (height >? 1000) then raise InvalidDimensionError
  else alloc (mkBoard width height
                (replicate (Z.to_nat height) (replicate (Z.to_nat width) 0)) 0).

Definition Board_set_cell (row col value : Z) : Method unit :=
  validate_grid (
    self <- get ;;
    if negb (in_bounds self row col) then raise IndexError
    else if negb ((value =? 0) || (value =? 1)) then raise ValueError
    else
      r <- py_getitem (grid self) row ;;
      r' <- py_setitem r col value ;;
      g' <- py_setitem (grid self) row r' ;;
      put (with_grid g' self)).

Definition Board_get_cell (row col : Z) : Method Z :=
  validate_grid (
    self <- get ;;
    if negb (in_bounds self row col) then ret 0
    else r <- py_getitem (grid self) row ;; py_getitem r col).

Definition Board_count_neighbors (row col : Z) : Method Z :=
  validate_grid (
    self <- get ;;
    for_fold [-1; 0; 1] (fun count dr =>
      for_fold [-1; 0; 1] (fun count dc =>
        if (dr =? 0) && (dc =? 0) then ret count
        else
          let neighbor_row := row + dr in
          let neighbor_col := col + dc in
          if in_bounds self neighbor_row neighbor_col then
            r <- py_getitem (grid self) neighbor_row ;;
            x <- py_getitem r neighbor_col ;;
            ret (count + x)
          else ret count) count) 0).

(** Python's [sum] over a list of integers. *)
Definition sum (l : list Z) : Z := fold_left Z.add l 0.

Definition Board_count_alive : Method Z :=
  validate_grid (self <- get ;; ret (sum (map sum (grid self)))).

Definition Board_clear : Method unit :=
  validate_grid (
    self <- get ;;
    put (mkBoard (width self) (height self)
           (replicate (Z.to_nat (height self))
              (replicate (Z.to_nat (width self)) 0)) 0)).

Definition set_cell (r : ref) (row col value : Z) : M unit :=
  call r (Board_set_cell row col value).
Definition get_cell (r : ref) (row col : Z) : M Z :=
  call r (Board_get_cell row col).
Definition count_neighbors (r : ref) (row col : Z) : M Z :=
  call r (Board_count_neighbors row col).
Definition count_alive (r : ref) : M Z := call r Board_count_alive.
Definition clear (r : ref) : M unit := call r Board_clear.

(** Attribute reads and writes from outside the class. *)
Definition attr {A} (r : ref) (f : Board -> A) : M A :=
  call r (self <- get ;; ret (f self)).
Definition set_attr (r : ref) (f : Board -> Board) : M unit :=
  call r (self <- get ;; put (f self)).

(** [Board.copy]: a new board whose rows are copies of the receiver's. *)
Definition copy (r : ref) : M ref :=
  w <- attr r width ;;
  h <- attr r height ;;
  new_board <- Board_init w h ;;
  g <- attr r grid ;;
  set_attr new_board (with_grid g) ;;
  n <- attr r generation ;;
  set_attr new_board (with_generation n) ;;
  ret new_board.

(** ** rules.py *)

(** A rule class: something with a static [evolve] taking a board and
    returning a board. *)
Record RuleClass : Type := mkRule { evolve : ref -> M ref }.

(** [for row in range(board.height): for col in range(board.width): ...],
    the traversal shared by the three built-in rules. *)
Definition for_each_cell (board : ref) (body : Z -> Z -> M unit) : M unit :=
  h <- attr board height ;;
  for_each (range h) (fun row =>
    w <- attr board width ;;
    for_each (range w) (fun col => body row col)).

Definition StandardRules_evolve (board : ref) : M ref :=
  w <- attr board width ;;
  h <- attr board height ;;
  new_board <- Board_init w h ;;
  n <- attr board generation ;;
  set_attr new_board (with_generation (n + 1)) ;;
  for_each_cell board (fun row col =>
    current_state <- get_cell board row col ;;
    neighbors <- count_neighbors board row col ;;
    if current_state =? 1 then
      if (neighbors =? 2) || (neighbors =? 3)
      then set_cell new_board row col 1
      else set_cell new_board row col 0
    else
      if neighbors =? 3
      then set_cell new_board row col 1
      else set_cell new_board row col 0) ;;
  ret new_board.

Definition HighLifeRules_evolve (board : ref) : M ref :=
  w <- attr board width ;;
  h <- attr board height ;;
  new_board <- Board_init w h ;;
  n <- attr board generation ;;
  set_attr new_board (with_generation (n + 1)) ;;
  for_each_cell board (fun row col =>
    current_state <- get_cell board row col ;;
    neighbors <- count_neighbors board row col ;;
    if current_state =? 1 then
      if (neighbors =? 2) || (neighbors =? 3)
      then set_cell new_board row col 1
      else ret tt
    else
      if (neighbors =? 3) || (neighbors =? 6)
      then set_cell new_board row col 1
      else ret tt) ;;
  ret new_board.

Definition DayAndNightRules_evolve (board : ref) : M ref :=
  w <- attr board width ;;
  h <- attr board height ;;
  new_board <- Board_init w h ;;
  n <- attr board generation ;;
  set_attr new_board (with_generation (n + 1)) ;;
  for_each_cell board (fun row col =>
    current_state <- get_cell board row col ;;
    neighbors <- count_neighbors board row col ;;
    if current_state =? 1 then
      if (neighbors =? 3) || (neighbors =? 4) || (neighbors =? 6)
         || (neighbors =? 7) || (neighbors =? 8)
      then set_cell new_board row col 1
      else ret tt
    else
      if (neighbors =? 3) || (neighbors =? 6) || (neighbors =? 7)
         || (neighbors =? 8)
      then set_cell new_board row col 1
      else ret tt) ;;
  ret new_board.

Definition StandardRules : RuleClass := mkRule StandardRules_evolve.
Definition HighLifeRules : RuleClass := mkRule HighLifeRules_evolve.
Definition DayAndNightRules : RuleClass := mkRule DayAndNightRules_evolve.

(** The three built-in variants, to quantify over them. *)
Inductive variant : Type := Standard | HighLife | DayAndNight.

Definition builtin (v : variant) : RuleClass :=
  match v with
  | Standard => StandardRules
  | HighLife => HighLifeRules
  | DayAndNight => DayAndNightRules
  end.

(** [evolve_grid]: the standard rule on a raw list of rows. *)
Definition evolve_grid (g : list (list Z)) : M (list (list Z)) :=
  let height := Z.of_nat (length g) in
  let width := match g with r :: _ => Z.of_nat (length r) | [] => 0 end in
  board <- Board_init width height ;;
  set_attr board (with_grid g) ;;
  evolved_board <- evolve StandardRules board ;;
  attr evolved_board grid.

(** ** metaprogramming.py: the rule registry *)

(** A Python [dict] keeps its keys in insertion order, and assigning to a
    key that is present replaces the value where the key stands.  The
    registry is such a dict from rule names to rule classes, kept as an
    association list in key order. *)
Section Dict.
Context {V : Type}.

Fixpoint dict_get (d : list (string * V)) (k : string) : option V :=
  match d with
  | [] => None
  | (k', v) :: d' => if String.eqb k' k then Some v else dict_get d' k
  end.

(** [d[k] = v] *)
Fixpoint dict_setitem (d : list (string * V)) (k : string) (v : V)
  : list (string * V) :=
  match d with
  | [] => [(k, v)]
  | (k', v') :: d' =>
      if String.eqb k' k then (k, v) :: d'
      else (k', v') :: dict_setitem d' k v
  end.

(** [list(d.keys())] *)
Definition dict_keys (d : list (string * V)) : list string := map fst d.
End Dict.

Module RuleRegistry.
(** The class attribute [_rules]. *)
Definition rules : Type := list (string * RuleClass).

(** [RuleRegistry.register(name)(rule_class)] *)
Definition register (name : string) (rule_class : RuleClass)
  : ST rules RuleClass :=
  _rules <- get ;;
  put (dict_setitem _rules name rule_class) ;;
  ret rule_class.

Definition get_rule (name : string) : ST rules RuleClass :=
  _rules <- get ;;
  match dict_get _rules name with
  | None => raise ValueError
  | Some rule_class => ret rule_class
  end.

Definition list_rules : ST rules (list string) :=
  _rules <- get ;; ret (dict_keys _rules).

(** [type(class_name, (), {...})]: the name of a class must not hold the
    character of code 0, or [type] raises [ValueError]. *)
Fixpoint has_null (s : string) : bool :=
  match s with
  | EmptyString => false
  | String c s' => Ascii.eqb c Ascii.zero || has_null s'
  end.

(** [add_rule_dynamically]: the class is built first, under the name
    capitalized and followed by [Rule]; [capitalize] keeps a character of code
    0 where it is. *)
Definition add_rule_dynamically (name : string) (evolve_func : ref -> M ref)
  : ST rules RuleClass :=
  if has_null name then raise ValueError
  else
    let rule_class := mkRule evolve_func in
    _rules <- get ;;
    put (dict_setitem _rules name rule_class) ;;
    ret rule_class.

(** The registry once rules.py is imported: the three decorated classes,
    in the order of their definitions. *)
Definition at_import : ST rules unit :=
  register "standard" StandardRules ;;
  register "highlife" HighLifeRules ;;
  register "day_and_night" DayAndNightRules ;;
  ret tt.

(** The registry after a sequence of registrations, from the empty one. *)
Definition after (regs : list (string * RuleClass)) : rules :=
  snd (for_each regs (fun nr => register nr.1 nr.2 ;; ret tt) []).
End RuleRegistry.

(** ** simulator.py *)

Record Simulator : Type := mkSimulator {
  board : ref;
  rule_class : RuleClass;
  rule_name : string;
  history : list ref;
  max_generations : Z
}.

(** A simulator method runs on the simulator's own state and the store. *)
Definition Sim (A : Type) : Type := ST (Simulator * heap) A.

Definition self_ : Sim Simulator := fun s => (Ok s.1, s).
Definition set_self (f : Simulator -> Simulator) : Sim unit :=
  fun s => (Ok tt, (f s.1, s.2)).
(** A store computation inside a simulator method. *)
Definition on_store {A} (m : M A) : Sim A :=
  fun s => let (res, h) := m s.2 in (res, (s.1, h)).

Definition with_board (r : ref) (s : Simulator) : Simulator :=
  mkSimulator r (rule_class s) (rule_name s) (history s) (max_generations s).
Definition with_history (l : list ref) (s : Simulator) : Simulator :=
  mkSimulator (board s) (rule_class s) (rule_name s) l (max_generations s).

(** [Simulator.__init__], given the registry's state. *)
Definition Simulator_init (board : ref) (rule_name : string)
  : ST RuleRegistry.rules Simulator :=
  rule_class <- RuleRegistry.get_rule rule_name ;;
  ret (mkSimulator board rule_class rule_name [] 10000).

Definition step : Sim ref :=
  self <- self_ ;;
  new_board <- on_store (evolve (rule_class self) (board self)) ;;
  set_self (with_board new_board) ;;
  ret new_board.



(** The decimal numeral of an integer: what [str(n)] returns when it
    returns. *)
Definition str (n : Z) : string := NilZero.string_of_int (Z.to_int n).

(** The number of decimal digits of [n], the sign not counted. *)
Definition digits (n : Z) : Z := Z.of_nat (String.length (str (Z.abs n))).

(** CPython converts between [int] and [str] up to 4300 decimal digits
    ([sys.int_max_str_digits], which the program leaves at its default) and
    raises [ValueError] beyond. *)
Definition max_str_digits : Z := 4300.

(** [str(n)] and [f"{n}"] for an integer that the code does not bound
    itself. *)
Definition format_int {S} (n : Z) : ST S string :=
  if max_str_digits <? digits n then raise ValueError else ret (str n).

(** [l[-100:]] *)
Definition last_100 {A} (l : list A) : list A := drop (length l - 100)%nat l.

(** [for i, state in enumerate(states): if grid == state: <leave with i>],
    giving the first matching index, counted from [i]. *)
Fixpoint first_match (g : list (list Z)) (states : list (list (list Z)))
  (i : Z) : option Z :=
  match states with
  | [] => None
  | state :: states' =>
      if bool_decide (g = state) then Some i
      else first_match g states' (i + 1)
  end.

(** The body of [for gen in range(max_generations)] in [run_until_stable];
    [previous_states] is the loop's local list.  The period written into the
    label is at most the length of that list, one entry a generation run, so
    it stays within what [str] converts. *)
Fixpoint run_until_stable_loop (gens : list Z) (check_period : Z)
  (previous_states : list (list (list Z))) : Sim (ref * string) :=
  match gens with
  | [] => self <- self_ ;; ret (board self, "max_generations_reached"%string)
  | gen :: gens' =>
      self <- self_ ;;
      prev_grid <- on_store (attr (board self) grid) ;;
      step ;;
      self <- self_ ;;
      alive <- on_store (count_alive (board self)) ;;
      if alive =? 0 then ret (board self, "extinction"%string)
      else
        g <- on_store (attr (board self) grid) ;;
        if bool_decide (g = prev_grid) then ret (board self, "still_life"%string)
        else if check_period =? 0 then raise ZeroDivisionError
        else if gen mod check_period =? 0 then
          match first_match g (last_100 previous_states) 0 with
          | Some i =>
              let period := Z.of_nat (length previous_states) - i in
              ret (board self, ("oscillator_period_" ++ str period)%string)
          | None =>
              run_until_stable_loop gens' check_period (previous_states ++ [g])
          end
        else run_until_stable_loop gens' check_period previous_states
  end.

Definition run_until_stable (max_generations' : option Z) (check_period : Z)
  : Sim (ref * string) :=
  self <- self_ ;;
  let max_generations' :=
    match max_generations' with
    | None => max_generations self
    | Some n => n
    end in
  run_until_stable_loop (range max_generations') check_period [].

Definition reset (board : option ref) : Sim unit :=
  match board with
  | Some b => set_self (with_board b)
  | None => ret tt
  end ;;
  set_self (with_history []).

(** ** pattern_parser.py: plain-text patterns *)

(** Python strings are taken as [string]s whose characters are the code
    points below 256. *)
Module PatternParser.
Local Open Scope string_scope.

Definition newline : ascii := ascii_of_nat 10.
Definition carriage_return : ascii := ascii_of_nat 13.
Definition nl : string := String newline "".

(** [c.isspace()] *)
Definition isspace (c : ascii) : bool :=
  let n := nat_of_ascii c in
  ((9 <=? n) && (n <=? 13) || (28 <=? n) && (n <=? 32)
   || (n =? 133) || (n =? 160))%nat.

(** [s.split('\n')] *)
Fixpoint split_lines (s : string) : list string :=
  match s with
  | "" => [""]
  | String c s' =>
      if Ascii.eqb c newline then "" :: split_lines s'
      else match split_lines s' with
           | l :: ls => String c l :: ls
           | [] => [String c ""]
           end
  end.

Fixpoint lstrip (s : string) : string :=
  match s with
  | "" => ""
  | String c s' => if isspace c then lstrip s' else s
  end.

Fixpoint rstrip (s : string) : string :=
  match s with
  | "" => ""
  | String c s' =>
      match rstrip s' with
      | "" => if isspace c then "" else String c ""
      | t => String c t
      end
  end.

Definition strip (s : string) : string := rstrip (lstrip s).

(** [s.startswith(p)] *)
Definition startswith (s p : string) : bool := String.prefix p s.

(** [s[n:]] for [n >= 0] *)
Fixpoint slice_from (n : nat) (s : string) : string :=
  match n, s with
  | O, _ => s
  | S n', String _ s' => slice_from n' s'
  | S _, "" => ""
  end.

(** [''.join(parts)] *)
Definition join (parts : list string) : string :=
  fold_right String.append "" parts.

Record pattern : Type := mkPattern {
  name : string;
  cells : list (Z * Z);
  comments : list string;
  format : string
}.

(** [for col, char in enumerate(line): if char in ('O', '*', '1'): ...],
    the coordinates appended for one line, columns counted from [col]. *)
Fixpoint line_cells (row col : Z) (line : string) : list (Z * Z) :=
  match line with
  | "" => []
  | String char line' =>
      if Ascii.eqb char "O" || Ascii.eqb char "*" || Ascii.eqb char "1"
      then (row, col) :: line_cells row (col + 1) line'
      else line_cells row (col + 1) line'
  end.

(** The body of [for row, line in enumerate(lines)] on the locals
    [(cells, name, comments)], rows counted from [row]. *)
Fixpoint plaintext_lines (lines : list string) (row : Z)
  (acc : list (Z * Z) * string * list string)
  : list (Z * Z) * string * list string :=
  match lines with
  | [] => acc
  | line :: lines' =>
      let '(cells, name, comments) := acc in
      let line := rstrip line in
      if startswith line "#" then
        let comment := strip (slice_from 1 line) in
        if startswith comment "N " then
          plaintext_lines lines' (row + 1)
            (cells, strip (slice_from 2 comment), comments)
        else
          plaintext_lines lines' (row + 1)
            (cells, name, (comments ++ [comment])%list)
      else
        plaintext_lines lines' (row + 1)
          ((cells ++ line_cells row 0 line)%list, name, comments)
  end.

Definition _parse_plaintext (content filename : string) : result pattern :=
  let lines := split_lines content in
  let '(cells, name, comments) := plaintext_lines lines 0 ([], filename, []) in
  match cells with
  | [] => Raise PatternParseError
  | _ => Ok (mkPattern name cells comments "plaintext")
  end.

(** [''.join('O' if cell else '.' for cell in row)] *)
Definition row_text (row : list Z) : string :=
  join (map (fun cell : Z => if (cell =? 0)%Z then "." else "O") row).

(** The body of [with open(filename, 'w') as f] in [save_pattern]; the
    state is the store of boards with the text the file holds, and [write]
    is [f.write].  [name] and [comments] default to [None]; an empty name or
    list writes nothing, as [None] does.  The two numbers are formatted when
    their line is written, and what was written before stays in the file if
    that raises. *)
Definition write (text : string) : ST (heap * string) unit :=
  fun s => (Ok tt, (s.1, s.2 ++ text)).

Definition on_boards {A} (m : M A) : ST (heap * string) A :=
  fun s => let (res, h) := m s.1 in (res, (h, s.2)).

Definition save_pattern (board : ref) (name : option string)
  (comments : option (list string)) : ST (heap * string) unit :=
  match name with
  | None | Some "" => ret tt
  | Some n => write ("#N " ++ n ++ nl)
  end ;;
  match comments with
  | None => ret tt
  | Some l => for_each l (fun comment => write ("# " ++ comment ++ nl))
  end ;;
  gen <- on_boards (attr board generation) ;;
  gen_text <- format_int gen ;;
  write ("# Generation: " ++ gen_text ++ nl) ;;
  alive <- on_boards (count_alive board) ;;
  alive_text <- format_int alive ;;
  write ("# Alive cells: " ++ alive_text ++ nl) ;;
  write ("#" ++ nl) ;;
  g <- on_boards (attr board grid) ;;
  for_each g (fun row => write (row_text row ++ nl)).

(** [open(filename, 'r').read()] in [parse], on a file holding [written]:
    text mode reads with universal newlines, so a carriage return, alone or
    followed by a line feed, arrives as one line feed. *)
Fixpoint read_text (written : string) : string :=
  match written with
  | "" => ""
  | String c s' =>
      if Ascii.eqb c carriage_return then
        match s' with
        | String c' s'' =>
            if Ascii.eqb c' newline then String newline (read_text s'')
            else String newline (read_text s')
        | "" => String newline ""
        end
      else String c (read_text s')
  end.
End PatternParser.

(** * Properties *)

(** ** Well-formed boards and the pure reading of a cell *)

(** What the constructor establishes and [set_cell] keeps: dimensions within
    1..1000, a buffer of [height] rows of [width] cells, every cell 0 or 1. *)
Definition wf_board (b : Board) : Prop :=
  (0 < width b <= 1000) ∧ (0 < height b <= 1000)
  ∧ length (grid b) = Z.to_nat (height b)
  ∧ Forall (fun r => length r = Z.to_nat (width b)) (grid b)
  ∧ Forall (Forall (fun x => x = 0 ∨ x = 1)) (grid b).

(** The state of cell [(row, col)], DEAD outside the board. *)
Definition cell (b : Board) (row col : Z) : Z :=
  if in_bounds b row col
  then default 0 (grid b !! Z.to_nat row ≫= (.!! Z.to_nat col))
  else 0.

(** The live cells among the eight neighbours, in the order the code adds
    them up. *)
Definition neighbors (b : Board) (row col : Z) : Z :=
  0 + cell b (row + -1) (col + -1) + cell b (row + -1) (col + 0)
    + cell b (row + -1) (col + 1)
    + cell b (row + 0) (col + -1) + cell b (row + 0) (col + 1)
    + cell b (row + 1) (col + -1) + cell b (row + 1) (col + 0)
    + cell b (row + 1) (col + 1).

Lemma in_bounds_iff b row col :
  in_bounds b row col = true ↔ 0 <= row < height b ∧ 0 <= col < width b.
Proof. unfold in_bounds. rewrite !andb_true_iff. lia. Qed.

Lemma in_bounds_false b row col :
  in_bounds b row col = false ↔ ¬ (0 <= row < height b ∧ 0 <= col < width b).
Proof. rewrite <- in_bounds_iff. destruct (in_bounds b row col); naive_solver. Qed.

Lemma py_getitem_nonneg {S A} (l : list A) (i : Z) (x : A) (s : S) :
  0 <= i → l !! Z.to_nat i = Some x → py_getitem l i s = (Ok x, s).
Proof.
  intros Hi Hl. unfold py_getitem.
  destruct (Z.ltb_spec i 0); [lia|].
  destruct (Z.ltb_spec i 0); [lia|]. by rewrite Hl.
Qed.

Lemma py_setitem_nonneg {S A} (l : list A) (i : Z) (x : A) (s : S) :
  0 <= i → (Z.to_nat i < length l)%nat →
  py_setitem l i x s = (Ok (<[Z.to_nat i := x]> l), s).
Proof.
  intros Hi Hl. unfold py_setitem.
  destruct (Z.ltb_spec i 0); [lia|].
  destruct (Z.ltb_spec i 0); [lia|].
  destruct (Nat.ltb_spec (Z.to_nat i) (length l)); [done|lia].
Qed.

(** Inside the bounds of a well-formed board the row and the cell exist. *)
Lemma wf_lookup b row col :
  wf_board b → in_bounds b row col = true →
  ∃ r x, grid b !! Z.to_nat row = Some r ∧ r !! Z.to_nat col = Some x
         ∧ length r = Z.to_nat (width b) ∧ cell b row col = x
         ∧ (x = 0 ∨ x = 1).
Proof.
  intros (Hw & Hh & Hlen & Hrows & Hbin) Hin.
  pose proof Hin as Hin'. apply in_bounds_iff in Hin' as [Hr Hc].
  destruct (lookup_lt_is_Some_2 (grid b) (Z.to_nat row)) as [r Hr']; [lia|].
  pose proof (proj1 (Forall_lookup _ _) Hrows _ _ Hr') as Hrl. simpl in Hrl.
  destruct (lookup_lt_is_Some_2 r (Z.to_nat col)) as [x Hx]; [lia|].
  exists r, x. repeat split; try done.
  - unfold cell. rewrite Hin, Hr'. simpl. by rewrite Hx.
  - pose proof (proj1 (Forall_lookup _ _) Hbin _ _ Hr') as Hb. simpl in Hb.
    exact (proj1 (Forall_lookup _ _) Hb _ _ Hx).
Qed.

Lemma cell_binary b row col : wf_board b → cell b row col = 0 ∨ cell b row col = 1.
Proof.
  intros Hwf. destruct (in_bounds b row col) eqn:Hin.
  - destruct (wf_lookup b row col Hwf Hin) as (r & x & _ & _ & _ & <- & Hx). done.
  - left. unfold cell. by rewrite Hin.
Qed.


(** [get_cell] reads [cell] and leaves the receiver as it was. *)
Lemma Board_get_cell_spec b row col :
  wf_board b → Board_get_cell row col b = (Ok (cell b row col), b).
Proof.
  intros Hwf. unfold Board_get_cell, validate_grid, bind, get. simpl.
  destruct (in_bounds b row col) eqn:Hin; simpl.
  - destruct (wf_lookup b row col Hwf Hin) as (r & x & Hr & Hx & _ & <- & _).
    apply in_bounds_iff in Hin as [? ?].
    rewrite (py_getitem_nonneg _ _ r) by (done || lia).
    by rewrite (py_getitem_nonneg _ _ (cell b row col)) by (done || lia).
  - unfold ret, cell. by rewrite Hin.
Qed.

(** One neighbour's contribution to the count. *)
Lemma neighbor_step b count nr nc :
  wf_board b →
  (if in_bounds b nr nc
   then r <- py_getitem (grid b) nr ;; x <- py_getitem r nc ;; ret (count + x)
   else ret count) b = (Ok (count + cell b nr nc), b).
Proof.
  intros Hwf. destruct (in_bounds b nr nc) eqn:Hin.
  - destruct (wf_lookup b nr nc Hwf Hin) as (r & x & Hr & Hx & _ & <- & _).
    apply in_bounds_iff in Hin as [? ?]. unfold bind.
    rewrite (py_getitem_nonneg _ _ r) by (done || lia).
    by rewrite (py_getitem_nonneg _ _ (cell b nr nc)) by (done || lia).
  - unfold ret, cell. rewrite Hin. by rewrite Z.add_0_r.
Qed.

(** A loop whose body always returns and keeps the state computes a fold. *)
Lemma for_fold_pure {S A B} (l : list A) (body : B → A → ST S B)
    (f : B → A → B) (s : S) :
  (∀ acc x, body acc x s = (Ok (f acc x), s)) →
  ∀ acc, for_fold l body acc s = (Ok (fold_left f l acc), s).
Proof.
  intros Hbody. induction l as [|x l IH]; intros acc; simpl; [done|].
  unfold bind. rewrite Hbody. apply IH.
Qed.

Lemma Board_count_neighbors_spec b row col :
  wf_board b → Board_count_neighbors row col b = (Ok (neighbors b row col), b).
Proof.
  intros Hwf. unfold Board_count_neighbors, validate_grid.
  unfold bind at 1. unfold get.
  rewrite (for_fold_pure _ _
    (fun count dr => fold_left (fun count dc =>
       if (dr =? 0) && (dc =? 0) then count
       else count + cell b (row + dr) (col + dc)) [-1; 0; 1] count)).
  - reflexivity.
  - intros acc dr. apply for_fold_pure. intros count dc.
    destruct ((dr =? 0) && (dc =? 0)); [done|].
    apply neighbor_step, Hwf.
Qed.

(** ** Writing a cell *)

(** The board after [grid[row][col] = v]. *)
Definition written (b : Board) (row col v : Z) : Board :=
  match grid b !! Z.to_nat row with
  | Some r => with_grid (<[Z.to_nat row := <[Z.to_nat col := v]> r]> (grid b)) b
  | None => b
  end.

Lemma Board_set_cell_spec b row col v :
  wf_board b → in_bounds b row col = true → v = 0 ∨ v = 1 →
  Board_set_cell row col v b = (Ok tt, written b row col v).
Proof.
  intros Hwf Hin Hv. unfold Board_set_cell, validate_grid, written.
  unfold bind at 1. unfold get. rewrite Hin. simpl.
  replace ((v =? 0) || (v =? 1)) with true
    by (destruct Hv; subst; reflexivity).
  simpl.
  destruct (wf_lookup b row col Hwf Hin) as (r & x & Hr & Hx & Hlr & _ & _).
  destruct Hwf as (Hw & Hh & Hlen & _).
  apply in_bounds_iff in Hin as [? ?]. unfold bind.
  rewrite (py_getitem_nonneg _ _ r) by (done || lia).
  rewrite py_setitem_nonneg by lia.
  rewrite py_setitem_nonneg by lia.
  by rewrite Hr.
Qed.

Lemma wf_written b row col v :
  wf_board b → v = 0 ∨ v = 1 → wf_board (written b row col v).
Proof.
  intros (Hw & Hh & Hlen & Hrows & Hbin) Hv. unfold written.
  destruct (grid b !! Z.to_nat row) as [r|] eqn:Hr; [|done].
  repeat split; simpl; try lia.
  - by rewrite length_insert.
  - apply Forall_insert; [done|]. rewrite length_insert.
    exact (proj1 (Forall_lookup _ _) Hrows _ _ Hr).
  - apply Forall_insert; [done|]. apply Forall_insert; [|done].
    exact (proj1 (Forall_lookup _ _) Hbin _ _ Hr).
Qed.

Lemma written_dims b row col v :
  width (written b row col v) = width b
  ∧ height (written b row col v) = height b
  ∧ generation (written b row col v) = generation b.
Proof. unfold written. by destruct (grid b !! Z.to_nat row). Qed.

Lemma in_bounds_written b row col v r c :
  in_bounds (written b row col v) r c = in_bounds b r c.
Proof.
  unfold in_bounds. by destruct (written_dims b row col v) as (-> & -> & _).
Qed.

(** The written cell holds the new value, every other cell its old one. *)
Lemma cell_written b row col v r c :
  wf_board b → in_bounds b row col = true →
  cell (written b row col v) r c
  = if (r =? row) && (c =? col) then v else cell b r c.
Proof.
  intros Hwf Hin.
  destruct (wf_lookup b row col Hwf Hin) as (rw & x & Hr & Hx & Hlr & _ & _).
  unfold cell at 1. rewrite in_bounds_written.
  destruct (in_bounds b r c) eqn:Hin'.
  2:{ destruct (Z.eqb_spec r row), (Z.eqb_spec c col); simpl;
      try (unfold cell; by rewrite Hin'). subst. congruence. }
  unfold written. rewrite Hr. simpl.
  apply in_bounds_iff in Hin as [? ?]. apply in_bounds_iff in Hin' as [? ?].
  destruct (Z.eqb_spec r row) as [->|Hne]; simpl.
  - rewrite list_lookup_insert_eq
      by (apply lookup_lt_is_Some; by eexists).
    simpl. destruct (Z.eqb_spec c col) as [->|Hne'].
    + rewrite list_lookup_insert_eq; [done|]. apply lookup_lt_is_Some; by eexists.
    + rewrite list_lookup_insert_ne by lia.
      unfold cell. replace (in_bounds b row c) with true
        by (symmetry; apply in_bounds_iff; lia).
      by rewrite Hr.
  - rewrite list_lookup_insert_ne by lia.
    unfold cell. replace (in_bounds b r c) with true
      by (symmetry; apply in_bounds_iff; lia). done.
Qed.

(** Writing the value a cell already holds changes nothing. *)
Lemma written_same b row col :
  wf_board b → in_bounds b row col = true →
  written b row col (cell b row col) = b.
Proof.
  intros Hwf Hin.
  destruct (wf_lookup b row col Hwf Hin) as (rw & x & Hr & Hx & Hlr & <- & _).
  unfold written. rewrite Hr.
  rewrite (list_insert_id rw) by done. rewrite list_insert_id by done.
  by destruct b.
Qed.

(** ** Method calls through the store *)

Lemma call_eval {A} (r : ref) (m : Method A) (h : heap) b res b' :
  h !! r = Some b → m b = (res, b') → call r m h = (res, <[r := b']> h).
Proof. intros Hr Hm. unfold call. by rewrite Hr, Hm. Qed.

Lemma call_read {A} (r : ref) (m : Method A) (h : heap) b res :
  h !! r = Some b → m b = (res, b) → call r m h = (res, h).
Proof.
  intros Hr Hm. rewrite (call_eval r m h b res b) by done.
  by rewrite list_insert_id.
Qed.

Lemma get_cell_eval h r b row col :
  h !! r = Some b → wf_board b → get_cell r row col h = (Ok (cell b row col), h).
Proof. intros Hr Hwf. eapply call_read; [done|]. by apply Board_get_cell_spec. Qed.

Lemma count_neighbors_eval h r b row col :
  h !! r = Some b → wf_board b →
  count_neighbors r row col h = (Ok (neighbors b row col), h).
Proof. intros Hr Hwf. eapply call_read; [done|]. by apply Board_count_neighbors_spec. Qed.

Lemma count_alive_eval h r b :
  h !! r = Some b → count_alive r h = (Ok (sum (map sum (grid b))), h).
Proof. intros Hr. by eapply call_read. Qed.

Lemma attr_eval {A} h r b (f : Board → A) :
  h !! r = Some b → attr r f h = (Ok (f b), h).
Proof. intros Hr. by eapply call_read. Qed.

Lemma set_attr_eval h r b f :
  h !! r = Some b → set_attr r f h = (Ok tt, <[r := f b]> h).
Proof. intros Hr. by eapply call_eval. Qed.

Lemma set_cell_eval h r b row col v :
  h !! r = Some b → wf_board b → in_bounds b row col = true → v = 0 ∨ v = 1 →
  set_cell r row col v h = (Ok tt, <[r := written b row col v]> h).
Proof. intros Hr Hwf Hin Hv. eapply call_eval; [done|]. by apply Board_set_cell_spec. Qed.

(** A new board of zeros. *)
Definition zeros (w h : Z) : Board :=
  mkBoard w h (replicate (Z.to_nat h) (replicate (Z.to_nat w) 0)) 0.

Lemma Board_init_eval w h (hp : heap) :
  0 < w <= 1000 → 0 < h <= 1000 →
  Board_init w h hp = (Ok (length hp), hp ++ [zeros w h]).
Proof.
  intros Hw Hh. unfold Board_init.
  destruct (Z.leb_spec w 0); [lia|]. destruct (Z.leb_spec h 0); [lia|]. simpl.
  destruct (Z.gtb_spec w 1000); [lia|]. destruct (Z.gtb_spec h 1000); [lia|].
  reflexivity.
Qed.

Lemma wf_zeros w h : 0 < w <= 1000 → 0 < h <= 1000 → wf_board (zeros w h).
Proof.
  intros Hw Hh. repeat split; simpl; try lia.
  - by rewrite length_replicate.
  - apply Forall_replicate. by rewrite length_replicate.
  - apply Forall_replicate, Forall_replicate. by left.
Qed.

Lemma cell_zeros w h r c : cell (zeros w h) r c = 0.
Proof.
  unfold cell. destruct (in_bounds _ r c) eqn:Hin; [|done].
  apply in_bounds_iff in Hin as [? ?]. simpl in *.
  rewrite lookup_replicate_2 by lia. simpl.
  by rewrite lookup_replicate_2 by lia.
Qed.

(** The last object of the store. *)
Lemma lookup_last (h : heap) b : (h ++ [b]) !! length h = Some b.
Proof. rewrite lookup_app_r by lia. by rewrite Nat.sub_diag. Qed.

Lemma insert_last (h : heap) b b' : <[length h := b']> (h ++ [b]) = h ++ [b'].
Proof.
  rewrite insert_app_r_alt by lia. by rewrite Nat.sub_diag.
Qed.

Lemma lookup_older (h : heap) b r x : h !! r = Some x → (h ++ [b]) !! r = Some x.
Proof. intros Hr. by apply lookup_app_l_Some. Qed.

(** ** One generation *)

(** The three [evolve] functions share their frame and differ in the
    treatment of one cell. *)
Definition cell_update (v : variant) (board new_board : ref) (row col : Z)
  : M unit :=
  current_state <- get_cell board row col ;;
  neighbors <- count_neighbors board row col ;;
  match v with
  | Standard =>
      if current_state =? 1 then
        if (neighbors =? 2) || (neighbors =? 3)
        then set_cell new_board row col 1
        else set_cell new_board row col 0
      else
        if neighbors =? 3
        then set_cell new_board row col 1
        else set_cell new_board row col 0
  | HighLife =>
      if current_state =? 1 then
        if (neighbors =? 2) || (neighbors =? 3)
        then set_cell new_board row col 1
        else ret tt
      else
        if (neighbors =? 3) || (neighbors =? 6)
        then set_cell new_board row col 1
        else ret tt
  | DayAndNight =>
      if current_state =? 1 then
        if (neighbors =? 3) || (neighbors =? 4) || (neighbors =? 6)
           || (neighbors =? 7) || (neighbors =? 8)
        then set_cell new_board row col 1
        else ret tt
      else
        if (neighbors =? 3) || (neighbors =? 6) || (neighbors =? 7)
           || (neighbors =? 8)
        then set_cell new_board row col 1
        else ret tt
  end.

Definition evolve_with (body : ref → ref → Z → Z → M unit) (board : ref)
  : M ref :=
  w <- attr board width ;;
  h <- attr board height ;;
  new_board <- Board_init w h ;;
  n <- attr board generation ;;
  set_attr new_board (with_generation (n + 1)) ;;
  for_each_cell board (body board new_board) ;;
  ret new_board.

Lemma evolve_builtin v : evolve (builtin v) = evolve_with (cell_update v).
Proof. by destruct v. Qed.

(** The state a cell takes in the next generation, read off the branches
    of the three rules. *)
Definition next_state (v : variant) (current_state neighbors : Z) : Z :=
  match v with
  | Standard =>
      if current_state =? 1
      then if (neighbors =? 2) || (neighbors =? 3) then 1 else 0
      else if neighbors =? 3 then 1 else 0
  | HighLife =>
      if current_state =? 1
      then if (neighbors =? 2) || (neighbors =? 3) then 1 else 0
      else if (neighbors =? 3) || (neighbors =? 6) then 1 else 0
  | DayAndNight =>
      if current_state =? 1
      then if (neighbors =? 3) || (neighbors =? 4) || (neighbors =? 6)
              || (neighbors =? 7) || (neighbors =? 8) then 1 else 0
      else if (neighbors =? 3) || (neighbors =? 6) || (neighbors =? 7)
              || (neighbors =? 8) then 1 else 0
  end.

Lemma next_state_binary v s n : next_state v s n = 0 ∨ next_state v s n = 1.
Proof.
  destruct v; simpl; repeat match goal with
    | |- context [if ?c then _ else _] => destruct c
    end; auto.
Qed.

(** The next generation of a board, cell by cell. *)
Definition evolved (v : variant) (b : Board) : Board :=
  mkBoard (width b) (height b)
    (map (fun row =>
       map (fun col => next_state v (cell b row col) (neighbors b row col))
           (seqZ 0 (width b)))
       (seqZ 0 (height b)))
    (generation b + 1).

Lemma wf_evolved v b : wf_board b → wf_board (evolved v b).
Proof.
  intros (Hw & Hh & _). repeat split; simpl; try lia.
  - by rewrite length_map, length_seqZ.
  - apply Forall_map, Forall_forall. intros row _. simpl.
    by rewrite length_map, length_seqZ.
  - apply Forall_map, Forall_forall. intros row _. simpl.
    apply Forall_map, Forall_forall. intros col _. simpl.
    apply next_state_binary.
Qed.

Lemma cell_evolved v b row col :
  in_bounds b row col = true →
  cell (evolved v b) row col = next_state v (cell b row col) (neighbors b row col).
Proof.
  intros Hin. unfold cell at 1.
  replace (in_bounds (evolved v b) row col) with true by done.
  apply in_bounds_iff in Hin as [? ?]. simpl.
  rewrite list_lookup_fmap.
  rewrite (lookup_seqZ_lt 0 (height b) (Z.to_nat row)) by lia. simpl.
  rewrite list_lookup_fmap.
  rewrite (lookup_seqZ_lt 0 (width b) (Z.to_nat col)) by lia. simpl.
  by rewrite !Z2Nat.id by lia.
Qed.

(** Two well-formed boards of the same size that agree on every cell have
    the same buffer. *)
Lemma grid_ext b1 b2 :
  wf_board b1 → wf_board b2 → width b1 = width b2 → height b1 = height b2 →
  (∀ row col, in_bounds b1 row col = true → cell b1 row col = cell b2 row col) →
  grid b1 = grid b2.
Proof.
  intros Hwf1 Hwf2 Hw Hh Hcell.
  pose proof Hwf1 as (_ & _ & Hlen1 & Hrows1 & _).
  pose proof Hwf2 as (_ & _ & Hlen2 & Hrows2 & _).
  apply list_eq_same_length with (n := length (grid b1)); [lia|lia|].
  intros i r1 r2 Hi Hr1 Hr2.
  pose proof (proj1 (Forall_lookup _ _) Hrows1 _ _ Hr1) as Hl1.
  pose proof (proj1 (Forall_lookup _ _) Hrows2 _ _ Hr2) as Hl2.
  simpl in *.
  apply list_eq_same_length with (n := length r1); [lia|lia|].
  intros j x1 x2 Hj Hx1 Hx2.
  assert (Hin : in_bounds b1 (Z.of_nat i) (Z.of_nat j) = true)
    by (apply in_bounds_iff; lia).
  specialize (Hcell _ _ Hin). unfold cell in Hcell.
  replace (in_bounds b2 (Z.of_nat i) (Z.of_nat j)) with true in Hcell
    by (symmetry; apply in_bounds_iff; apply in_bounds_iff in Hin; lia).
  rewrite Hin, !Nat2Z.id, Hr1, Hr2 in Hcell. simpl in Hcell.
  by rewrite Hx1, Hx2 in Hcell.
Qed.

(** A loop whose body keeps an invariant indexed by the iteration. *)
Lemma for_each_inv {S A} (l : list A) (body : A → ST S unit)
    (I : nat → S → Prop) (s : S) :
  I 0%nat s →
  (∀ i x s, l !! i = Some x → I i s →
            ∃ s', body x s = (Ok tt, s') ∧ I (Datatypes.S i) s') →
  ∃ s', for_each l body s = (Ok tt, s') ∧ I (length l) s'.
Proof.
  revert I s. induction l as [|x l IH]; intros I s H0 Hstep; simpl.
  - by exists s.
  - destruct (Hstep 0%nat x s eq_refl H0) as (s1 & Hb & H1).
    destruct (IH (fun i => I (Datatypes.S i)) s1 H1) as (s2 & Hl & H2).
    { intros i y s' Hy Hi. by apply (Hstep (Datatypes.S i)). }
    exists s2. split; [|done]. unfold bind. by rewrite Hb.
Qed.

(** The new board while the loops run: the cells already visited hold
    their next state, the others are still zero. *)
Definition partial (v : variant) (b : Board) (visited : Z → Z → bool)
    (nb : Board) : Prop :=
  wf_board nb ∧ width nb = width b ∧ height nb = height b
  ∧ generation nb = generation b + 1
  ∧ ∀ r c, in_bounds b r c = true →
      cell nb r c = if visited r c
                    then next_state v (cell b r c) (neighbors b r c) else 0.

(** Row-major order: the cells before [(row, col)]. *)
Definition before (row col : Z) (r c : Z) : bool :=
  (r <? row) || ((r =? row) && (c <? col)).

Lemma cell_update_eval v (h : heap) board b nb row col :
  h !! board = Some b → wf_board b → wf_board nb →
  width nb = width b → height nb = height b →
  in_bounds b row col = true → cell nb row col = 0 →
  cell_update v board (length h) row col (h ++ [nb])
  = (Ok tt, h ++ [written nb row col
                    (next_state v (cell b row col) (neighbors b row col))]).
Proof.
  intros Hb Hwf Hwfn Hw Hh Hin Hzero.
  assert (Hin' : in_bounds nb row col = true)
    by (unfold in_bounds in *; by rewrite Hw, Hh).
  assert (Hkeep : h ++ [nb] = h ++ [written nb row col 0])
    by (rewrite <- Hzero; by rewrite written_same).
  assert (Hset : ∀ x, x = 0 ∨ x = 1 →
            set_cell (length h) row col x (h ++ [nb])
            = (Ok tt, h ++ [written nb row col x])).
  { intros x Hx. rewrite (set_cell_eval _ _ nb) by (done || apply lookup_last).
    by rewrite insert_last. }
  unfold cell_update, bind.
  rewrite (get_cell_eval _ _ b) by (done || by apply lookup_older).
  rewrite (count_neighbors_eval _ _ b) by (done || by apply lookup_older).
  destruct v; simpl;
    repeat match goal with
           | |- context [if ?c then _ else _] => destruct c
           end;
    first [ apply Hset; auto | unfold ret; by rewrite <- Hkeep ].
Qed.

Lemma partial_step v b nb row col :
  wf_board b → in_bounds b row col = true →
  partial v b (before row col) nb →
  partial v b (before row (col + 1))
    (written nb row col (next_state v (cell b row col) (neighbors b row col))).
Proof.
  intros Hwf Hin (Hwfn & Hw & Hh & Hg & Hcells).
  assert (Hin' : in_bounds nb row col = true)
    by (unfold in_bounds in *; by rewrite Hw, Hh).
  destruct (written_dims nb row col
    (next_state v (cell b row col) (neighbors b row col))) as (Hw' & Hh' & Hg').
  split; [apply wf_written; [done|apply next_state_binary]|].
  do 3 (split; [congruence|]).
  intros r c Hrc. rewrite cell_written by done. rewrite Hcells by done.
  unfold before.
  destruct (Z.eqb_spec r row), (Z.eqb_spec c col),
    (Z.ltb_spec r row), (Z.ltb_spec c col), (Z.ltb_spec c (col + 1));
    subst; simpl; try lia; done.
Qed.

Lemma partial_row_end v b nb row :
  partial v b (before row (width b)) nb → partial v b (before (row + 1) 0) nb.
Proof.
  intros (Hwfn & Hw & Hh & Hg & Hcells). do 4 (split; [done|]).
  intros r c Hrc. rewrite Hcells by done.
  apply in_bounds_iff in Hrc as [? ?]. unfold before.
  destruct (Z.eqb_spec r row), (Z.eqb_spec r (row + 1)),
    (Z.ltb_spec r row), (Z.ltb_spec r (row + 1)),
    (Z.ltb_spec c (width b)), (Z.ltb_spec c 0);
    subst; simpl; try lia; done.
Qed.

(** The traversal fills the new board with the next generation. *)
Lemma for_each_cell_eval v (h : heap) board b nb :
  h !! board = Some b → wf_board b → partial v b (before 0 0) nb →
  ∃ nb', for_each_cell board (cell_update v board (length h)) (h ++ [nb])
         = (Ok tt, h ++ [nb'])
         ∧ partial v b (before (height b) 0) nb'.
Proof.
  intros Hb Hwf Hnb. unfold for_each_cell, bind at 1.
  rewrite (attr_eval _ _ b) by (by apply lookup_older).
  destruct (for_each_inv (range (height b))
    (fun row => w <- attr board width ;;
       for_each (range w) (fun col => cell_update v board (length h) row col))
    (fun i s => ∃ nb', s = h ++ [nb'] ∧ partial v b (before (Z.of_nat i) 0) nb')
    (h ++ [nb])) as (s' & Hrun & nb' & -> & Hnb').
  - by exists nb.
  - intros i row s Hrow (nb1 & -> & Hnb1).
    apply lookup_seqZ in Hrow as [-> Hi]. simpl.
    unfold bind at 1. rewrite (attr_eval _ _ b) by (by apply lookup_older).
    destruct (for_each_inv (range (width b))
      (fun col => cell_update v board (length h) (Z.of_nat i) col)
      (fun j s => ∃ nb', s = h ++ [nb']
                  ∧ partial v b (before (Z.of_nat i) (Z.of_nat j)) nb')
      (h ++ [nb1])) as (s' & Hrun & nb2 & -> & Hnb2).
    + by exists nb1.
    + intros j col s Hcol (nb2 & -> & Hnb2).
      apply lookup_seqZ in Hcol as [-> Hj]. simpl.
      assert (Hin : in_bounds b (Z.of_nat i) (Z.of_nat j) = true)
        by (apply in_bounds_iff; lia).
      pose proof Hnb2 as (Hwfn & Hw & Hh & _ & Hcells).
      eexists. split.
      * apply cell_update_eval; try done.
        rewrite Hcells by done. unfold before. rewrite ?Z.add_0_l.
        destruct (Z.ltb_spec (Z.of_nat i) (Z.of_nat i)); [lia|].
        destruct (Z.ltb_spec (Z.of_nat j) (Z.of_nat j)); [lia|].
        simpl. by rewrite ?andb_false_r.
      * eexists. split; [done|].
        replace (Z.of_nat (S j)) with (Z.of_nat j + 1) by lia.
        by apply partial_step.
    + exists (h ++ [nb2]). split; [done|]. exists nb2. split; [done|].
      unfold range in Hnb2. rewrite length_seqZ in Hnb2.
      destruct Hwf as (Hw & _).
      rewrite Z2Nat.id in Hnb2 by lia.
      replace (Z.of_nat (S i)) with (Z.of_nat i + 1) by lia.
      by apply partial_row_end.
  - exists nb'. split; [done|].
    unfold range in Hnb'. rewrite length_seqZ in Hnb'.
    destruct Hwf as (_ & Hh & _). by rewrite Z2Nat.id in Hnb' by lia.
Qed.

(** [evolve] allocates one board, the next generation of its argument, and
    returns the reference to it; the store is otherwise as before. *)
Lemma evolve_eval v (h : heap) board b :
  h !! board = Some b → wf_board b →
  evolve (builtin v) board h = (Ok (length h), h ++ [evolved v b]).
Proof.
  intros Hb Hwf. rewrite evolve_builtin. unfold evolve_with.
  pose proof Hwf as (Hw & Hh & _).
  unfold bind at 1. rewrite (attr_eval _ _ b) by done.
  unfold bind at 1. rewrite (attr_eval _ _ b) by done.
  unfold bind at 1. rewrite Board_init_eval by done.
  unfold bind at 1. rewrite (attr_eval _ _ b) by (by apply lookup_older).
  unfold bind at 1.
  rewrite (set_attr_eval _ _ (zeros (width b) (height b))) by apply lookup_last.
  rewrite insert_last.
  destruct (for_each_cell_eval v h board b
    (with_generation (generation b + 1) (zeros (width b) (height b))))
    as (nb' & Hrun & Hwfn & Hw' & Hh' & Hg' & Hcells); try done.
  { split; [apply (wf_zeros (width b) (height b)); done|].
    do 3 (split; [done|]).
    intros r c Hrc. apply in_bounds_iff in Hrc as [? ?].
    change (cell (with_generation _ ?z) r c) with (cell z r c).
    rewrite cell_zeros. unfold before.
    destruct (Z.ltb_spec r 0); [lia|]. destruct (Z.ltb_spec c 0); [lia|].
    simpl. by rewrite andb_false_r. }
  unfold bind at 1. rewrite Hrun. unfold ret. do 2 f_equal.
  assert (Hgrid : grid nb' = grid (evolved v b)).
  { apply grid_ext; try done; [by apply wf_evolved|].
    intros r c Hrc.
    assert (Hrc' : in_bounds b r c = true)
      by (unfold in_bounds in *; by rewrite <- Hw', <- Hh').
    rewrite Hcells, cell_evolved by done.
    apply in_bounds_iff in Hrc' as [? ?]. unfold before.
    destruct (Z.ltb_spec r (height b)); [done|lia]. }
  destruct nb'. simpl in *. unfold evolved. by subst.
Qed.

(** Well-formedness is decidable, so it can be checked by evaluation on a
    given board. *)
#[global] Instance wf_board_dec b : Decision (wf_board b).
Proof. unfold wf_board. apply _. Defined.

Ltac check_wf := apply (bool_decide_unpack _); vm_compute; exact I.

(** ** The rule tables *)





(** A board with a vertical blinker, as in the package's tests. *)
Definition blinker : Board :=
  mkBoard 5 5
    [[0; 0; 0; 0; 0]; [0; 0; 1; 0; 0]; [0; 0; 1; 0; 0]; [0; 0; 1; 0; 0];
     [0; 0; 0; 0; 0]] 0.



(** C4.  Whatever the board, reading a position outside
    [0, height) x [0, width) returns DEAD; it raises nothing and leaves the
    store as it was. *)
Theorem get_cell_outside_is_dead (h : heap) (r : ref) (b : Board)
    (row col : Z) :
  h !! r = Some b → ¬ (0 <= row < height b ∧ 0 <= col < width b) →
  get_cell r row col h = (Ok 0, h).
Proof.
  intros Hr Hout. eapply call_read; [done|].
  apply in_bounds_false in Hout.
  unfold Board_get_cell, validate_grid, bind, get. by rewrite Hout.
Qed.

Lemma get_cell_outside_is_dead_witness :
  get_cell 0%nat (-1) 5 [blinker] = (Ok 0, [blinker]).
Proof.
  apply (get_cell_outside_is_dead [blinker] 0%nat blinker (-1) 5);
    [reflexivity | simpl; lia].
Defined.






(** ** The block is a still life *)







(** The 4x4 board of the package's block test. *)
Definition block_4x4 : Board :=
  mkBoard 4 4 [[0; 0; 0; 0]; [0; 1; 1; 0]; [0; 1; 1; 0]; [0; 0; 0; 0]] 0.



(** ** Running the simulator *)

(** The number of live cells, as [count_alive] adds them up. *)
Definition alive (b : Board) : Z := sum (map sum (grid b)).





Lemma copy_eval (h : heap) r b :
  h !! r = Some b → wf_board b → copy r h = (Ok (length h), h ++ [b]).
Proof.
  intros Hb (Hw & Hh & _). unfold copy.
  unfold bind at 1. rewrite (attr_eval _ _ b) by done.
  unfold bind at 1. rewrite (attr_eval _ _ b) by done.
  unfold bind at 1. rewrite Board_init_eval by done.
  unfold bind at 1. rewrite (attr_eval _ _ b) by (by apply lookup_older).
  unfold bind at 1.
  rewrite (set_attr_eval _ _ (zeros (width b) (height b))) by apply lookup_last.
  rewrite insert_last.
  unfold bind at 1. rewrite (attr_eval _ _ b) by (by apply lookup_older).
  unfold bind at 1. erewrite set_attr_eval by apply lookup_last.
  rewrite insert_last. unfold ret. by destruct b.
Qed.









(** The board [j] generations after [b]. *)
Definition generation_after (v : variant) (j : nat) (b : Board) : Board :=
  Nat.iter j (evolved v) b.

(** A simulator as its constructor builds it for the standard rule. *)
Definition standard_simulator (board : ref) : Simulator :=
  mkSimulator board StandardRules "standard" [] 10000.





(** ** Oscillator detection: the window of snapshots *)


(** A board of 7 columns and 6 rows whose run under the standard rule
    comes back, at generation 104, to the grid of generation 28. *)
Definition soup : Board :=
  mkBoard 7 6
    [[1; 0; 1; 1; 1; 0; 0];
     [0; 1; 0; 1; 1; 0; 1];
     [0; 1; 1; 1; 0; 0; 0];
     [0; 0; 0; 0; 1; 0; 0];
     [0; 0; 1; 1; 0; 1; 1];
     [1; 0; 0; 0; 0; 0; 0]] 0.

(** C2.  Once more than 100 snapshots are recorded, the period reported
    is not the number of snapshots recorded minus the index of the matching
    snapshot.  On [soup], under the standard rule and with the check period
    1, [run_until_stable] returns at generation 104 with the label
    [oscillator_period_79].  The snapshots recorded by then are the grids of
    generations 1 to 103; the one that matches is the grid of generation 28,
    at index 27 among them, so the period by the formula is 103 - 27 = 76,
    and 76 generations is indeed what lies between the two equal grids, no
    generation in between having that grid.  The code subtracts the place of
    the match in the slice [previous_states[-100:]], which is 24, from the
    number of snapshots recorded: 103 - 24 = 79. *)
Theorem run_until_stable_window_index :
  let snapshots :=
    map (fun j => grid (generation_after Standard j soup)) (seq 1 103) in
  let current := grid (generation_after Standard 104 soup) in
  (∃ s', run_until_stable None 1 (standard_simulator 0%nat, [soup])
         = (Ok (104%nat, "oscillator_period_79"%string), s'))
  ∧ Z.of_nat (length snapshots) = 103
  ∧ first_match current snapshots 0 = Some 27
  ∧ first_match current (last_100 snapshots) 0 = Some 24
  ∧ grid (generation_after Standard 28 soup) = current
  ∧ ∀ j, (j < 104)%nat →
         grid (generation_after Standard j soup) = current → j = 28%nat.
Proof.
  intros snapshots current.
  split; [eexists; vm_compute; reflexivity|].
  split; [reflexivity|].
  split; [vm_compute; reflexivity|].
  split; [vm_compute; reflexivity|].
  split; [vm_compute; reflexivity|].
  intros j Hj Hgrid.
  assert (Hin : j ∈ filter (fun j => grid (generation_after Standard j soup)
                                     = current) (seq 0 104)).
  { apply list_elem_of_filter. split; [done|]. apply elem_of_seq. lia. }
  assert (Hfilter : filter (fun j => grid (generation_after Standard j soup)
                                      = current) (seq 0 104) = [28%nat])
    by (vm_compute; reflexivity).
  rewrite Hfilter in Hin. by apply list_elem_of_singleton in Hin.
Qed.

(** ** The rule registry *)

#[local] Instance string_eq_dec : EqDecision string := String.string_dec.

Lemma dict_keys_setitem {V} (d : list (string * V)) k v :
  dict_keys (dict_setitem d k v)
  = if bool_decide (k ∈ dict_keys d) then dict_keys d else dict_keys d ++ [k].
Proof.
  induction d as [|[k' v'] d IH].
  - done.
  - cbn [dict_setitem dict_keys map fst].
    destruct (String.eqb_spec k' k) as [->|Hne]; cbn [map fst].
    + by rewrite bool_decide_eq_true_2 by apply list_elem_of_here.
    + fold (dict_keys (dict_setitem d k v)). fold (dict_keys d). rewrite IH.
      case_bool_decide as Hin.
      * by rewrite bool_decide_eq_true_2 by (by apply list_elem_of_further).
      * rewrite bool_decide_eq_false_2; [done|].
        rewrite elem_of_cons. intros [?|?]; congruence.
Qed.

Lemma dict_get_setitem {V} (d : list (string * V)) k v :
  dict_get (dict_setitem d k v) k = Some v.
Proof.
  induction d as [|[k' v'] d IH]; simpl.
  - by rewrite String.eqb_refl.
  - destruct (String.eqb_spec k' k) as [->|Hne]; simpl.
    + by rewrite String.eqb_refl.
    + by destruct (String.eqb_spec k' k).
Qed.

(** Registrations one after the other are assignments to the dict. *)
Lemma after_fold (regs : list (string * RuleClass)) (d : RuleRegistry.rules) :
  snd (for_each regs (fun nr => RuleRegistry.register nr.1 nr.2 ;; ret tt) d)
  = fold_left (fun d nr => dict_setitem d nr.1 nr.2) regs d.
Proof.
  revert d. induction regs as [|[n r] regs IH]; intros d; simpl; [done|].
  by rewrite <- IH.
Qed.

Lemma after_snoc regs name rule_class :
  RuleRegistry.after (regs ++ [(name, rule_class)])
  = dict_setitem (RuleRegistry.after regs) name rule_class.
Proof. unfold RuleRegistry.after. by rewrite !after_fold, fold_left_app. Qed.

(** The names in the order of their first registration. *)
Definition insertion_order (names : list string) : list string :=
  reverse (remove_dups (reverse names)).

Lemma insertion_order_snoc names k :
  insertion_order (names ++ [k])
  = if bool_decide (k ∈ insertion_order names) then insertion_order names
    else insertion_order names ++ [k].
Proof.
  unfold insertion_order. rewrite reverse_snoc. simpl.
  destruct (decide_rel elem_of k (reverse names)) as [Hin|Hin].
  - rewrite bool_decide_eq_true_2; [done|].
    by rewrite elem_of_reverse, elem_of_remove_dups.
  - rewrite bool_decide_eq_false_2
      by (by rewrite elem_of_reverse, elem_of_remove_dups).
    by rewrite reverse_cons.
Qed.

Lemma keys_after regs :
  dict_keys (RuleRegistry.after regs) = insertion_order (map fst regs).
Proof.
  induction regs as [|[n r] regs IH] using rev_ind; [done|].
  rewrite after_snoc, dict_keys_setitem, map_app. cbn [map fst].
  by rewrite insertion_order_snoc, IH.
Qed.

Lemma insertion_order_NoDup names : NoDup (insertion_order names).
Proof.
  unfold insertion_order. rewrite reverse_Permutation. apply NoDup_remove_dups.
Qed.

Lemma elem_of_insertion_order names k : k ∈ insertion_order names ↔ k ∈ names.
Proof.
  unfold insertion_order.
  by rewrite elem_of_reverse, elem_of_remove_dups, elem_of_reverse.
Qed.

(** C9.  In a registry built by any sequence of registrations, registering
    a rule under a name that is already there raises nothing and returns the
    rule; afterwards [list_rules] is the list it was before, which is the
    names in the order of their first registration, the name occurs in it
    exactly once, and [get_rule] gives the new rule for it. *)
Theorem register_overwrites (regs : list (string * RuleClass))
    (name : string) (new_rule : RuleClass) :
  name ∈ map fst regs →
  ∃ names d',
    RuleRegistry.list_rules (RuleRegistry.after regs)
    = (Ok names, RuleRegistry.after regs)
    ∧ RuleRegistry.register name new_rule (RuleRegistry.after regs)
      = (Ok new_rule, d')
    ∧ RuleRegistry.list_rules d' = (Ok names, d')
    ∧ names = insertion_order (map fst regs)
    ∧ count_occ String.string_dec names name = 1%nat
    ∧ RuleRegistry.get_rule name d' = (Ok new_rule, d').
Proof.
  intros Hin.
  exists (dict_keys (RuleRegistry.after regs)),
    (dict_setitem (RuleRegistry.after regs) name new_rule).
  split; [done|]. split; [done|].
  assert (Hkeys : dict_keys (dict_setitem (RuleRegistry.after regs) name new_rule)
                  = dict_keys (RuleRegistry.after regs)).
  { rewrite dict_keys_setitem, bool_decide_eq_true_2; [done|].
    by rewrite keys_after, elem_of_insertion_order. }
  split; [unfold RuleRegistry.list_rules, bind, get, ret; by rewrite Hkeys|].
  split; [apply keys_after|]. split.
  - rewrite keys_after.
    apply NoDup_count_occ'.
    + apply NoDup_ListNoDup, insertion_order_NoDup.
    + apply list_elem_of_In. by apply elem_of_insertion_order.
  - unfold RuleRegistry.get_rule, bind, get. by rewrite dict_get_setitem.
Qed.

(** The registry once the package is imported. *)
Definition builtin_registrations : list (string * RuleClass) :=
  [("standard"%string, StandardRules); ("highlife"%string, HighLifeRules);
   ("day_and_night"%string, DayAndNightRules)].

Lemma register_overwrites_witness :
  ∃ names d',
    RuleRegistry.list_rules (RuleRegistry.after builtin_registrations)
    = (Ok names, RuleRegistry.after builtin_registrations)
    ∧ RuleRegistry.register "highlife" DayAndNightRules
        (RuleRegistry.after builtin_registrations)
      = (Ok DayAndNightRules, d')
    ∧ RuleRegistry.list_rules d' = (Ok names, d')
    ∧ names = insertion_order (map fst builtin_registrations)
    ∧ count_occ String.string_dec names "highlife"%string = 1%nat
    ∧ RuleRegistry.get_rule "highlife" d' = (Ok DayAndNightRules, d').
Proof.
  apply (register_overwrites builtin_registrations "highlife" DayAndNightRules).
  apply (bool_decide_unpack _). vm_compute. exact I.
Defined.

(** At import the registry is what the three decorators leave, and the
    constructor finds the standard rule in it. *)
Lemma at_import_registry :
  RuleRegistry.at_import [] = (Ok tt, RuleRegistry.after builtin_registrations).
Proof. reflexivity. Qed.

Lemma Simulator_init_standard board :
  Simulator_init board "standard" (RuleRegistry.after builtin_registrations)
  = (Ok (standard_simulator board), RuleRegistry.after builtin_registrations).
Proof. reflexivity. Qed.

(** ** Saving a board and parsing what was saved *)

Section RoundTrip.
Import PatternParser.
Local Open Scope string_scope.


(** Every character of [s] satisfies [P]. *)
Fixpoint all_chars (P : ascii → bool) (s : string) : bool :=
  match s with
  | "" => true
  | String c s' => P c && all_chars P s'
  end.


(** The coordinates of the cells of one row that are not zero, columns
    counted from [col]; and of a grid, rows counted from [row]. *)
Fixpoint row_live (row col : Z) (l : list Z) : list (Z * Z) :=
  match l with
  | [] => []
  | x :: l' =>
      if (x =? 0)%Z then row_live row (col + 1) l'
      else (row, col) :: row_live row (col + 1) l'
  end.

Fixpoint grid_live (row : Z) (g : list (list Z)) : list (Z * Z) :=
  match g with
  | [] => []
  | r :: g' => (row_live row 0 r ++ grid_live (row + 1) g')%list
  end.

Lemma append_assoc (a b c : string) : (a ++ b) ++ c = a ++ (b ++ c).
Proof. induction a as [|x a IH]; simpl; [done|]. by rewrite IH. Qed.

Lemma append_nil_r (a : string) : a ++ "" = a.
Proof. induction a as [|x a IH]; simpl; [done|]. by rewrite IH. Qed.

Lemma all_chars_app P a b :
  all_chars P (a ++ b) = all_chars P a && all_chars P b.
Proof.
  induction a as [|x a IH]; simpl; [done|]. by rewrite IH, andb_assoc.
Qed.



(** A line without line feed, ended by one, is the first line of a text. *)
Lemma split_lines_line l s :
  all_chars (fun c => negb (Ascii.eqb c newline)) l = true →
  split_lines (l ++ nl ++ s) = l :: split_lines s.
Proof.
  induction l as [|x l IH]; simpl; [done|].
  rewrite andb_true_iff. intros [Hx Hl].
  apply negb_true_iff in Hx. rewrite Hx.
  change (String newline s) with (nl ++ s). by rewrite IH.
Qed.

Lemma split_lines_join ls s :
  Forall (fun l => all_chars (fun c => negb (Ascii.eqb c newline)) l = true) ls →
  split_lines (join (map (fun l => l ++ nl) ls) ++ s)
  = (ls ++ split_lines s)%list.
Proof.
  induction 1 as [|l ls Hl _ IH]; simpl; [done|].
  by rewrite !append_assoc, split_lines_line, IH.
Qed.


Lemma rstrip_no_space s :
  all_chars (fun c => negb (isspace c)) s = true → rstrip s = s.
Proof.
  induction s as [|x s IH]; simpl; [done|].
  rewrite andb_true_iff. intros [Hx Hs]. apply negb_true_iff in Hx.
  rewrite IH by done. rewrite Hx. by destruct s.
Qed.


Lemma all_chars_lines P ls :
  P newline = true → Forall (fun l => all_chars P l = true) ls →
  all_chars P (join (map (fun l => l ++ nl) ls)) = true.
Proof.
  intros Hnl. induction 1 as [|l ls Hl _ IH]; simpl; [done|].
  rewrite !all_chars_app, Hl, IH. simpl. by rewrite Hnl.
Qed.

(** Decimal numerals consist of digits and a sign. *)
Lemma all_chars_str P n :
  (∀ c, In c (list_ascii_of_string "-0123456789") → P c = true) →
  all_chars P (str n) = true.
Proof.
  intros HP.
  assert (Hd : ∀ d, all_chars P (NilEmpty.string_of_uint d) = true).
  { induction d; simpl; rewrite ?IHd, ?andb_true_r; try done;
      apply HP; simpl; tauto. }
  assert (Hz : ∀ d, all_chars P (NilZero.string_of_uint d) = true).
  { intros d. destruct d; try apply Hd. simpl. rewrite andb_true_r.
    apply HP. simpl. tauto. }
  unfold str, NilZero.string_of_int. destruct (Z.to_int n); [apply Hz|].
  simpl. rewrite Hz, andb_true_r. apply HP. simpl. tauto.
Qed.
















Lemma elem_of_row_live row col l r c :
  (r, c) ∈ row_live row col l
  ↔ r = row ∧ ∃ j x, c = (col + Z.of_nat j)%Z ∧ l !! j = Some x ∧ x ≠ 0%Z.
Proof.
  revert col. induction l as [|y l IH]; intros col; simpl.
  - rewrite elem_of_nil. split; [done|]. by intros (_ & j & x & _ & Hj & _).
  - assert (Htail : (r, c) ∈ row_live row (col + 1) l
              → r = row ∧ ∃ j x, c = (col + Z.of_nat j)%Z
                                 ∧ (y :: l) !! j = Some x ∧ x ≠ 0%Z).
    { intros (-> & j & x & -> & Hj & Hx)%IH. split; [done|].
      exists (S j), x. repeat split; try done; lia. }
    destruct (Z.eqb_spec y 0) as [->|Hy]; [|rewrite elem_of_cons]; split.
    + done.
    + intros (-> & [|j] & x & -> & Hj & Hx); simpl in Hj; [congruence|].
      apply IH. split; [done|]. exists j, x. repeat split; try done; lia.
    + intros [[= -> ->]|?]; [|by apply Htail]. split; [done|].
      exists 0%nat, y. repeat split; try done; lia.
    + intros (-> & [|j] & x & -> & Hj & Hx); simpl in Hj.
      * left. f_equal. lia.
      * right. apply IH. split; [done|].
        exists j, x. repeat split; try done; lia.
Qed.

Lemma elem_of_grid_live row g r c :
  (r, c) ∈ grid_live row g
  ↔ ∃ i rw j x, r = (row + Z.of_nat i)%Z ∧ c = Z.of_nat j
                ∧ g !! i = Some rw ∧ rw !! j = Some x ∧ x ≠ 0%Z.
Proof.
  revert row. induction g as [|rw g IH]; intros row; simpl.
  - rewrite elem_of_nil. split; [done|].
    by intros (i & rw & j & x & _ & _ & Hi & _).
  - rewrite elem_of_app, elem_of_row_live, IH. split.
    + intros [(-> & j & x & -> & Hj & Hx)|(i & rw' & j & x & -> & -> & Hi & Hj & Hx)].
      * exists 0%nat, rw, j, x. repeat split; try done; lia.
      * exists (S i), rw', j, x. repeat split; try done; lia.
    + intros ([|i] & rw' & j & x & -> & -> & Hi & Hj & Hx); simpl in Hi.
      * left. injection Hi as ->. split; [lia|]. by exists j, x.
      * right. exists i, rw', j, x. repeat split; try done; lia.
Qed.

(** On a well-formed board these are the live cells, rows counted from
    [k]. *)
Lemma elem_of_grid_live_cell b k r c :
  wf_board b → (r, c) ∈ grid_live k (grid b) ↔ cell b (r - k) c = 1%Z.
Proof.
  intros Hwf. rewrite elem_of_grid_live. split.
  - intros (i & rw & j & x & -> & -> & Hi & Hj & Hx).
    assert (Hin : in_bounds b (k + Z.of_nat i - k) (Z.of_nat j) = true).
    { destruct Hwf as (_ & _ & Hlen & Hrows & _).
      pose proof (proj1 (Forall_lookup _ _) Hrows _ _ Hi) as Hl. simpl in Hl.
      apply lookup_lt_Some in Hi, Hj. apply in_bounds_iff. lia. }
    destruct (wf_lookup b _ _ Hwf Hin) as (rw' & x' & Hi' & Hj' & _ & -> & Hbin).
    replace (Z.to_nat (k + Z.of_nat i - k)) with i in Hi' by lia.
    rewrite Nat2Z.id in Hj'. destruct Hbin; congruence.
  - intros Hcell. destruct (in_bounds b (r - k) c) eqn:Hin.
    + destruct (wf_lookup b _ _ Hwf Hin) as (rw & x & Hi & Hj & _ & Hx & _).
      apply in_bounds_iff in Hin as [? ?].
      exists (Z.to_nat (r - k)), rw, (Z.to_nat c), x.
      repeat split; try done; lia.
    + unfold cell in Hcell. by rewrite Hin in Hcell.
Qed.







End RoundTrip.

(** ** The package's own examples *)

(** The blinker of the tests turns by a quarter and comes back. *)
Example blinker_period_2 :
  evolve_grid (grid blinker) []
  = (Ok [[0; 0; 0; 0; 0]; [0; 0; 0; 0; 0]; [0; 1; 1; 1; 0]; [0; 0; 0; 0; 0];
         [0; 0; 0; 0; 0]],
     [blinker; evolved Standard blinker])
  ∧ grid (generation_after Standard 2 blinker) = grid blinker.
Proof. split; reflexivity. Qed.

Example blinker_is_oscillator :
  fst (run_until_stable (Some 100) 1 (standard_simulator 0%nat, [blinker]))
  = Ok (3%nat, "oscillator_period_2"%string).
Proof. vm_compute. reflexivity. Qed.

Example block_is_still_life :
  fst (run_until_stable None 1 (standard_simulator 0%nat, [block_4x4]))
  = Ok (1%nat, "still_life"%string).
Proof. vm_compute. reflexivity. Qed.

Example single_cell_dies :
  fst (run_until_stable (Some 100) 1
         (standard_simulator 0%nat,
          [mkBoard 3 3 [[0; 0; 0]; [0; 1; 0]; [0; 0; 0]] 0]))
  = Ok (1%nat, "extinction"%string).
Proof. vm_compute. reflexivity. Qed.

(** * Further properties of the board *)

(** A method call touches the receiver only: every other object of the
    store is as before, whether the call returns or raises. *)
Lemma call_frame {A} (r : ref) (m : Method A) (h h' : heap) res :
  call r m h = (res, h') → ∀ r', r' ≠ r → h' !! r' = h !! r'.
Proof.
  unfold call. destruct (h !! r) as [b|]; [|by intros [= <- <-]].
  destruct (m b) as [res' b']. intros [= <- <-] r' Hne.
  by apply list_lookup_insert_ne.
Qed.


(** X2.  A [set_cell] inside a well-formed board with value 0 or 1 returns;
    [get_cell] at that position then gives the value written, at every other
    position what it gave before; dimensions and generation are unchanged,
    the board stays well formed and no other board is touched. *)
Theorem set_cell_then_get_cell (h : heap) (r : ref) (b : Board)
    (row col value : Z) :
  h !! r = Some b → wf_board b →
  0 <= row < height b → 0 <= col < width b → value = 0 ∨ value = 1 →
  ∃ h' b',
    set_cell r row col value h = (Ok tt, h')
    ∧ get_cell r row col h' = (Ok value, h')
    ∧ (∀ row' col', (row', col') ≠ (row, col) →
         fst (get_cell r row' col' h') = fst (get_cell r row' col' h))
    ∧ h' !! r = Some b' ∧ wf_board b'
    ∧ width b' = width b ∧ height b' = height b
    ∧ generation b' = generation b
    ∧ (∀ r', r' ≠ r → h' !! r' = h !! r').
Proof.
  intros Hr Hwf Hrow Hcol Hv.
  assert (Hin : in_bounds b row col = true) by (by apply in_bounds_iff).
  assert (Hlt : (r < length h)%nat) by (by eapply lookup_lt_Some).
  exists (<[r := written b row col value]> h), (written b row col value).
  assert (Hr' : <[r := written b row col value]> h !! r
                = Some (written b row col value))
    by (by apply list_lookup_insert_eq).
  assert (Hwf' : wf_board (written b row col value)) by (by apply wf_written).
  destruct (written_dims b row col value) as (Hw & Hh & Hg).
  split; [by apply set_cell_eval|]. split.
  { rewrite (get_cell_eval _ _ _ _ _ Hr' Hwf'), cell_written by done.
    by rewrite !Z.eqb_refl. }
  split.
  { intros row' col' Hne.
    rewrite (get_cell_eval _ _ _ _ _ Hr' Hwf'), (get_cell_eval _ _ _ _ _ Hr Hwf).
    simpl. rewrite cell_written by done.
    destruct (Z.eqb_spec row' row), (Z.eqb_spec col' col); simpl; try done.
    congruence. }
  do 5 (split; [done|]). intros r' Hne. by apply list_lookup_insert_ne.
Qed.

Lemma set_cell_then_get_cell_witness :
  ∃ h' b',
    set_cell 0%nat 0 4 1 [blinker] = (Ok tt, h')
    ∧ get_cell 0%nat 0 4 h' = (Ok 1, h')
    ∧ (∀ row' col', (row', col') ≠ (0, 4) →
         fst (get_cell 0%nat row' col' h')
         = fst (get_cell 0%nat row' col' [blinker]))
    ∧ h' !! 0%nat = Some b' ∧ wf_board b'
    ∧ width b' = width blinker ∧ height b' = height blinker
    ∧ generation b' = generation blinker
    ∧ (∀ r', r' ≠ 0%nat → h' !! r' = [blinker] !! r').
Proof.
  apply (set_cell_then_get_cell [blinker] 0%nat blinker 0 4 1);
    [reflexivity | check_wf | simpl; lia | simpl; lia | by right].
Defined.

(** The two ways [set_cell] raises. *)
Lemma set_cell_raises (h : heap) r b row col value :
  h !! r = Some b →
  in_bounds b row col = false ∨ (value ≠ 0 ∧ value ≠ 1) →
  ∃ e, set_cell r row col value h = (Raise e, h).
Proof.
  intros Hr Hbad.
  destruct (in_bounds b row col) eqn:Hin.
  - destruct Hbad as [|[H0 H1]]; [done|]. exists ValueError.
    eapply call_read; [done|].
    unfold Board_set_cell, validate_grid, bind, get. rewrite Hin. simpl.
    destruct (Z.eqb_spec value 0); [done|]. by destruct (Z.eqb_spec value 1).
  - exists IndexError. eapply call_read; [done|].
    unfold Board_set_cell, validate_grid, bind, get. by rewrite Hin.
Qed.

(** X3.  On a well-formed board [count_neighbors] returns a number from 0
    to 8, whatever the position, and does not count the cell itself: writing
    the cell does not change the count of its own neighbours. *)
Theorem count_neighbors_range (h : heap) (r : ref) (b : Board)
    (row col : Z) :
  h !! r = Some b → wf_board b →
  ∃ n, count_neighbors r row col h = (Ok n, h) ∧ 0 <= n <= 8
       ∧ ∀ value h', set_cell r row col value h = (Ok tt, h') →
                     count_neighbors r row col h' = (Ok n, h').
Proof.
  intros Hr Hwf. exists (neighbors b row col).
  split; [by apply count_neighbors_eval|]. split.
  { unfold neighbors.
    pose proof (cell_binary b (row + -1) (col + -1) Hwf).
    pose proof (cell_binary b (row + -1) (col + 0) Hwf).
    pose proof (cell_binary b (row + -1) (col + 1) Hwf).
    pose proof (cell_binary b (row + 0) (col + -1) Hwf).
    pose proof (cell_binary b (row + 0) (col + 1) Hwf).
    pose proof (cell_binary b (row + 1) (col + -1) Hwf).
    pose proof (cell_binary b (row + 1) (col + 0) Hwf).
    pose proof (cell_binary b (row + 1) (col + 1) Hwf). lia. }
  intros value h' Hset.
  destruct (in_bounds b row col) eqn:Hin.
  2:{ destruct (set_cell_raises h r b row col value Hr) as [e He]; [by left|].
      congruence. }
  destruct (decide (value = 0 ∨ value = 1)) as [Hv|Hv].
  2:{ destruct (set_cell_raises h r b row col value Hr) as [e He];
        [right; lia|congruence]. }
  rewrite (set_cell_eval _ _ b) in Hset by done. injection Hset as <-.
  assert (Hlt : (r < length h)%nat) by (by eapply lookup_lt_Some).
  rewrite (count_neighbors_eval _ _ (written b row col value))
    by (by apply list_lookup_insert_eq || by apply wf_written).
  do 2 f_equal. unfold neighbors. rewrite !cell_written by done.
  repeat match goal with
         | |- context [?a =? ?b] => destruct (Z.eqb_spec a b); try lia
         end; reflexivity.
Qed.

Lemma count_neighbors_range_witness :
  ∃ n, count_neighbors 0%nat 2 2 [blinker] = (Ok n, [blinker]) ∧ 0 <= n <= 8
       ∧ ∀ value h', set_cell 0%nat 2 2 value [blinker] = (Ok tt, h') →
                     count_neighbors 0%nat 2 2 h' = (Ok n, h').
Proof.
  apply (count_neighbors_range [blinker] 0%nat blinker 2 2);
    [reflexivity | check_wf].
Defined.

Lemma sum_from (l : list Z) (a : Z) : fold_left Z.add l a = a + sum l.
Proof.
  unfold sum. revert a. induction l as [|x l IH]; intros a; simpl; [lia|].
  rewrite (IH (a + x)), (IH (0 + x)). lia.
Qed.

Lemma sum_cons (x : Z) (l : list Z) : sum (x :: l) = x + sum l.
Proof. unfold sum at 1. simpl. apply sum_from. Qed.

Lemma sum_row_live row col (l : list Z) :
  Forall (fun x => x = 0 ∨ x = 1) l →
  sum l = Z.of_nat (length (row_live row col l)).
Proof.
  intros Hl. revert col. induction Hl as [|x l Hx _ IH]; intros col; [done|].
  rewrite sum_cons. simpl.
  destruct Hx as [->| ->]; simpl; rewrite (IH (col + 1)); lia.
Qed.

Lemma sum_grid_live row (g : list (list Z)) :
  Forall (Forall (fun x => x = 0 ∨ x = 1)) g →
  sum (map sum g) = Z.of_nat (length (grid_live row g)).
Proof.
  intros Hg. revert row. induction Hg as [|r g Hr _ IH]; intros row; [done|].
  simpl. rewrite sum_cons, length_app, (sum_row_live row 0 r Hr), (IH (row + 1)).
  lia.
Qed.

Lemma length_row_live row col (l : list Z) :
  (length (row_live row col l) <= length l)%nat.
Proof.
  revert col. induction l as [|x l IH]; intros col; simpl; [lia|].
  specialize (IH (col + 1)). destruct (x =? 0); simpl; lia.
Qed.

Lemma length_grid_live row (g : list (list Z)) (w : nat) :
  Forall (fun r => length r = w) g →
  (length (grid_live row g) <= length g * w)%nat.
Proof.
  intros Hg. revert row. induction Hg as [|r g Hr _ IH]; intros row; simpl; [lia|].
  rewrite length_app. pose proof (length_row_live row 0 r).
  specialize (IH (row + 1)). lia.
Qed.

Lemma NoDup_row_live row col (l : list Z) : NoDup (row_live row col l).
Proof.
  revert col. induction l as [|x l IH]; intros col; simpl; [constructor|].
  destruct (x =? 0); [apply IH|]. constructor; [|apply IH].
  rewrite elem_of_row_live. intros (_ & j & y & Hc & _). lia.
Qed.

Lemma NoDup_grid_live row (g : list (list Z)) : NoDup (grid_live row g).
Proof.
  revert row. induction g as [|r g IH]; intros row; simpl; [constructor|].
  apply NoDup_app. split; [apply NoDup_row_live|]. split; [|apply IH].
  intros [r' c'] (-> & _)%elem_of_row_live
    (i & rw & j & x & Hr & _)%elem_of_grid_live. lia.
Qed.

(** X4.  On a well-formed board [count_alive] returns the number of live
    cells: the length of the duplicate-free list of the coordinates whose
    cell is ALIVE.  It lies between 0 and width x height, and is 0 exactly
    when every cell is DEAD. *)
Theorem count_alive_counts_live_cells (h : heap) (r : ref) (b : Board) :
  h !! r = Some b → wf_board b →
  ∃ n live,
    count_alive r h = (Ok n, h)
    ∧ n = Z.of_nat (length live) ∧ NoDup live
    ∧ (∀ row col, (row, col) ∈ live ↔ cell b row col = 1)
    ∧ 0 <= n <= width b * height b
    ∧ (n = 0 ↔ ∀ row col, cell b row col = 0).
Proof.
  intros Hr Hwf. exists (alive b), (grid_live 0 (grid b)).
  pose proof Hwf as (Hw & Hh & Hlen & Hrows & Hbin).
  assert (Hmem : ∀ row col, (row, col) ∈ grid_live 0 (grid b)
                            ↔ cell b row col = 1).
  { intros row col. rewrite (elem_of_grid_live_cell b 0 row col Hwf).
    by rewrite Z.sub_0_r. }
  assert (Hn : alive b = Z.of_nat (length (grid_live 0 (grid b))))
    by (by apply sum_grid_live).
  split; [by apply count_alive_eval|]. split; [done|].
  split; [apply NoDup_grid_live|]. split; [done|]. split.
  - pose proof (length_grid_live 0 (grid b) _ Hrows). rewrite Hn. nia.
  - rewrite Hn. split.
    + intros H0 row col.
      destruct (cell_binary b row col Hwf) as [?|H1]; [done|].
      apply Hmem in H1. destruct (grid_live 0 (grid b)); [|simpl in H0; lia].
      by apply elem_of_nil in H1.
    + intros Hdead. destruct (grid_live 0 (grid b)) as [|[row col] l]; [done|].
      assert (H1 : cell b row col = 1) by (apply Hmem, list_elem_of_here).
      rewrite Hdead in H1. lia.
Qed.

Lemma count_alive_counts_live_cells_witness :
  ∃ n live,
    count_alive 0%nat [blinker] = (Ok n, [blinker])
    ∧ n = Z.of_nat (length live) ∧ NoDup live
    ∧ (∀ row col, (row, col) ∈ live ↔ cell blinker row col = 1)
    ∧ 0 <= n <= width blinker * height blinker
    ∧ (n = 0 ↔ ∀ row col, cell blinker row col = 0).
Proof.
  apply (count_alive_counts_live_cells [blinker] 0%nat blinker);
    [reflexivity | check_wf].
Defined.

Lemma sum_zeros (w h : nat) : sum (map sum (replicate h (replicate w 0))) = 0.
Proof.
  assert (Hrow : sum (replicate w 0) = 0).
  { induction w as [|w IH]; [done|]. simpl replicate. by rewrite sum_cons, IH. }
  induction h as [|h IH]; [done|].
  simpl replicate. simpl map. by rewrite sum_cons, Hrow, IH.
Qed.

Lemma Board_get_cell_zeros w h row col :
  Board_get_cell row col (zeros w h) = (Ok 0, zeros w h).
Proof.
  unfold Board_get_cell, validate_grid, bind, get.
  destruct (in_bounds (zeros w h) row col) eqn:Hin; [|done]. simpl.
  apply in_bounds_iff in Hin as [? ?]. simpl in *.
  rewrite (py_getitem_nonneg _ _ (replicate (Z.to_nat w) 0))
    by (lia || apply lookup_replicate_2; lia).
  apply py_getitem_nonneg; [lia|]. apply lookup_replicate_2. lia.
Qed.

(** X5.  [clear] needs nothing of the board: whatever its state, it
    returns, every cell then reads DEAD, no cell is counted alive, the
    generation is 0, the dimensions are kept and no other board is
    touched. *)
Theorem clear_resets_board (h : heap) (r : ref) (b : Board) :
  h !! r = Some b →
  ∃ h' b',
    clear r h = (Ok tt, h') ∧ h' !! r = Some b'
    ∧ width b' = width b ∧ height b' = height b ∧ generation b' = 0
    ∧ (∀ row col, get_cell r row col h' = (Ok 0, h'))
    ∧ count_alive r h' = (Ok 0, h')
    ∧ (∀ r', r' ≠ r → h' !! r' = h !! r').
Proof.
  intros Hr.
  assert (Hlt : (r < length h)%nat) by (by eapply lookup_lt_Some).
  exists (<[r := zeros (width b) (height b)]> h), (zeros (width b) (height b)).
  assert (Hr' : <[r := zeros (width b) (height b)]> h !! r
                = Some (zeros (width b) (height b)))
    by (by apply list_lookup_insert_eq).
  split; [by eapply call_eval|]. do 4 (split; [done|]).
  split; [|split].
  - intros row col. eapply call_read; [done|]. apply Board_get_cell_zeros.
  - rewrite (count_alive_eval _ _ _ Hr'). simpl. by rewrite sum_zeros.
  - intros r' Hne. by apply list_lookup_insert_ne.
Qed.

Lemma clear_resets_board_witness :
  ∃ h' b',
    clear 0%nat [blinker] = (Ok tt, h') ∧ h' !! 0%nat = Some b'
    ∧ width b' = width blinker ∧ height b' = height blinker
    ∧ generation b' = 0
    ∧ (∀ row col, get_cell 0%nat row col h' = (Ok 0, h'))
    ∧ count_alive 0%nat h' = (Ok 0, h')
    ∧ (∀ r', r' ≠ 0%nat → h' !! r' = [blinker] !! r').
Proof. apply (clear_resets_board [blinker] 0%nat blinker). reflexivity. Defined.

(** X6.  [copy] of a well-formed board returns a new object that holds the
    same dimensions, cells and generation; the two are independent: a
    [set_cell] on either one, whatever it does, leaves the other as it is. *)
Theorem copy_is_independent (h : heap) (r : ref) (b : Board) :
  h !! r = Some b → wf_board b →
  ∃ c h1,
    copy r h = (Ok c, h1) ∧ c ≠ r ∧ h !! c = None
    ∧ h1 !! c = Some b ∧ h1 !! r = Some b
    ∧ (∀ row col value res h2,
         set_cell c row col value h1 = (res, h2) → h2 !! r = Some b)
    ∧ (∀ row col value res h2,
         set_cell r row col value h1 = (res, h2) → h2 !! c = Some b).
Proof.
  intros Hr Hwf.
  assert (Hlt : (r < length h)%nat) by (by eapply lookup_lt_Some).
  exists (length h), (h ++ [b]).
  split; [by apply copy_eval|]. split; [lia|].
  split; [by apply lookup_ge_None|]. split; [apply lookup_last|].
  split; [by apply lookup_older|]. split.
  - intros row col value res h2 Hset.
    rewrite (call_frame _ _ _ _ _ Hset) by lia. by apply lookup_older.
  - intros row col value res h2 Hset.
    rewrite (call_frame _ _ _ _ _ Hset) by lia. apply lookup_last.
Qed.

Lemma copy_is_independent_witness :
  ∃ c h1,
    copy 0%nat [blinker] = (Ok c, h1) ∧ c ≠ 0%nat ∧ [blinker] !! c = None
    ∧ h1 !! c = Some blinker ∧ h1 !! 0%nat = Some blinker
    ∧ (∀ row col value res h2,
         set_cell c row col value h1 = (res, h2) → h2 !! 0%nat = Some blinker)
    ∧ (∀ row col value res h2,
         set_cell 0%nat row col value h1 = (res, h2) → h2 !! c = Some blinker).
Proof.
  apply (copy_is_independent [blinker] 0%nat blinker); [reflexivity | check_wf].
Defined.

(** * Further properties of the rules *)








(** X9.  [evolve_grid] builds a board from the raw rows, so it raises
    [InvalidDimensionError], allocating nothing, when the list has no row,
    more than 1000 rows, or a first row with no or more than 1000 cells.  On
    a rectangular grid of zeros and ones within these sizes it returns the
    next generation under the standard rule, a grid of the same shape. *)
Theorem evolve_grid_dimensions (g : list (list Z)) (hp : heap) :
  let height := Z.of_nat (length g) in
  let width := match g with r :: _ => Z.of_nat (length r) | [] => 0 end in
  (¬ (0 < width <= 1000 ∧ 0 < height <= 1000) →
   evolve_grid g hp = (Raise InvalidDimensionError, hp))
  ∧ (wf_board (mkBoard width height g 0) →
     ∃ g' st,
       evolve_grid g hp = (Ok g', st)
       ∧ g' = grid (evolved Standard (mkBoard width height g 0))
       ∧ length g' = length g
       ∧ Forall (fun r => Z.of_nat (length r) = width) g').
Proof.
  intros height width. split.
  - intros Hdim. unfold evolve_grid. fold height. fold width.
    unfold bind at 1. unfold Board_init.
    destruct (Z.leb_spec width 0), (Z.leb_spec height 0); simpl; try done.
    destruct (Z.gtb_spec width 1000), (Z.gtb_spec height 1000); simpl;
      try done. lia.
  - intros Hwf. pose proof Hwf as (Hw & Hh & _). simpl in Hw, Hh.
    set (b := mkBoard width height g 0) in *.
    exists (grid (evolved Standard b)), ((hp ++ [b]) ++ [evolved Standard b]).
    split; [|split; [done|split]].
    + unfold evolve_grid. fold height. fold width.
      unfold bind at 1. rewrite Board_init_eval by done.
      unfold bind at 1.
      rewrite (set_attr_eval _ _ (zeros width height)) by apply lookup_last.
      rewrite insert_last.
      change (with_grid g (zeros width height)) with b.
      unfold bind at 1. change StandardRules with (builtin Standard).
      rewrite (evolve_eval Standard _ _ b) by (apply lookup_last || done).
      apply attr_eval. apply (lookup_last (hp ++ [b])).
    + simpl. rewrite length_map, length_seqZ. lia.
    + apply Forall_map, Forall_forall. intros row _. simpl.
      rewrite length_map, length_seqZ. lia.
Qed.

(** * Further properties of the registry and the simulator *)

Lemma dict_get_setitem_ne {V} (d : list (string * V)) k k' v :
  k' ≠ k → dict_get (dict_setitem d k v) k' = dict_get d k'.
Proof.
  intros Hne. induction d as [|[k0 v0] d IH]; simpl.
  - by destruct (String.eqb_spec k k').
  - destruct (String.eqb_spec k0 k) as [->|Hk]; simpl.
    + destruct (String.eqb_spec k k'); [congruence|].
      by destruct (String.eqb_spec k k').
    + by rewrite IH.
Qed.

Lemma dict_get_None {V} (d : list (string * V)) k :
  dict_get d k = None ↔ k ∉ dict_keys d.
Proof.
  induction d as [|[k0 v0] d IH]; simpl.
  - split; [intros _; apply not_elem_of_nil|done].
  - rewrite not_elem_of_cons. destruct (String.eqb_spec k0 k) as [->|Hk].
    + split; [done|]. by intros [? _].
    + rewrite IH. split; [by split|by intros [_ ?]].
Qed.

(** What the registry holds under a name after a sequence of
    registrations. *)
Lemma dict_get_after_unregistered regs name :
  name ∉ map fst regs → dict_get (RuleRegistry.after regs) name = None.
Proof.
  intros Hnew. apply dict_get_None.
  by rewrite keys_after, elem_of_insertion_order.
Qed.

Lemma dict_get_after_last before name rule later :
  name ∉ map fst later →
  dict_get (RuleRegistry.after (before ++ (name, rule) :: later)) name
  = Some rule.
Proof.
  intros Hlater. induction later as [|[k r] later IH] using rev_ind.
  - by rewrite after_snoc, dict_get_setitem.
  - rewrite app_comm_cons, app_assoc, after_snoc.
    rewrite map_app, not_elem_of_app in Hlater. destruct Hlater as [Hl Hk].
    rewrite dict_get_setitem_ne; [by apply IH|].
    intros ->. apply Hk. simpl. apply list_elem_of_here.
Qed.

(** X10.  In a registry built by any sequence of registrations, [get_rule]
    of a name never registered raises [ValueError]; of a registered name it
    returns the rule of the last registration under that name.  Either way
    the registry is left as it is. *)
Theorem get_rule_last_registration (regs : list (string * RuleClass))
    (name : string) :
  (name ∉ map fst regs →
   RuleRegistry.get_rule name (RuleRegistry.after regs)
   = (Raise ValueError, RuleRegistry.after regs))
  ∧ (∀ before rule later,
       regs = before ++ (name, rule) :: later → name ∉ map fst later →
       RuleRegistry.get_rule name (RuleRegistry.after regs)
       = (Ok rule, RuleRegistry.after regs)).
Proof.
  split.
  - intros Hnew. unfold RuleRegistry.get_rule, bind, get.
    by rewrite dict_get_after_unregistered.
  - intros before rule later -> Hlater.
    unfold RuleRegistry.get_rule, bind, get.
    by rewrite dict_get_after_last.
Qed.

(** X11.  [add_rule_dynamically] under a name that holds the character of
    code 0 raises [ValueError], from building the class, and registers
    nothing.  Under any other name the rule is registered and found by the
    constructor of a simulator, which starts with an empty history and the
    ceiling of 10000; a [step] of that simulator is one call of the function
    supplied: what the function returns becomes the simulator's board, and
    an exception of the function comes out of [step] with the simulator's
    board unchanged. *)
Theorem dynamic_rule_dispatch (d : RuleRegistry.rules) (name : string)
    (evolve_func : ref → M ref) (board : ref) :
  (RuleRegistry.has_null name = true →
   RuleRegistry.add_rule_dynamically name evolve_func d = (Raise ValueError, d))
  ∧ (RuleRegistry.has_null name = false →
     ∃ rule_class d' s,
       RuleRegistry.add_rule_dynamically name evolve_func d
       = (Ok rule_class, d')
       ∧ Simulator_init board name d' = (Ok s, d')
       ∧ s = mkSimulator board rule_class name [] 10000
       ∧ (∀ (h h' : heap) new_board,
            evolve_func board h = (Ok new_board, h') →
            step (s, h) = (Ok new_board, (with_board new_board s, h')))
       ∧ (∀ (h h' : heap) e,
            evolve_func board h = (Raise e, h') →
            step (s, h) = (Raise e, (s, h')))).
Proof.
  split.
  { intros Hnull. unfold RuleRegistry.add_rule_dynamically. by rewrite Hnull. }
  intros Hnull.
  exists (mkRule evolve_func), (dict_setitem d name (mkRule evolve_func)),
    (mkSimulator board (mkRule evolve_func) name [] 10000).
  split.
  { unfold RuleRegistry.add_rule_dynamically. by rewrite Hnull. }
  split.
  { unfold Simulator_init, bind, RuleRegistry.get_rule, get, bind.
    by rewrite dict_get_setitem. }
  split; [done|]. split.
  - intros h h' new_board Hf. unfold step, bind, self_, on_store. simpl.
    by rewrite Hf.
  - intros h h' e Hf. unfold step, bind, self_, on_store. simpl.
    by rewrite Hf.
Qed.

(** X12.  The constructor of a simulator raises [ValueError] for a rule
    name that was never registered, and for a registered name gives a
    simulator on the given board with the rule last registered under the
    name, an empty history and the ceiling of 10000. *)
Theorem Simulator_init_lookup (regs : list (string * RuleClass))
    (board : ref) (name : string) :
  (name ∉ map fst regs →
   Simulator_init board name (RuleRegistry.after regs)
   = (Raise ValueError, RuleRegistry.after regs))
  ∧ (∀ before rule later,
       regs = before ++ (name, rule) :: later → name ∉ map fst later →
       Simulator_init board name (RuleRegistry.after regs)
       = (Ok (mkSimulator board rule name [] 10000), RuleRegistry.after regs)).
Proof.
  split.
  - intros Hnew. unfold Simulator_init, RuleRegistry.get_rule, bind, get.
    by rewrite dict_get_after_unregistered.
  - intros before rule later -> Hlater.
    unfold Simulator_init, RuleRegistry.get_rule, bind, get.
    by rewrite dict_get_after_last.
Qed.

(** ** The history kept by [run] *)











(** ** What [run_until_stable] reports *)








(** * The rest of the pattern codec and the board's text forms *)

(** ** board.py: [to_string] *)

(** ['\n'.join(lines)], [lines] being one string for each row made of
    [alive_char] and [dead_char].  The defaults of the two parameters are
    characters above 255 and are not expressible here: both are given. *)
Definition Board_to_string (alive_char dead_char : string) : Method string :=
  validate_grid (
    self <- get ;;
    let lines :=
      map (fun row =>
             PatternParser.join
               (map (fun cell : Z => if cell =? 0 then dead_char else alive_char)
                  row))
        (grid self) in
    ret (String.concat PatternParser.nl lines)).

Definition to_string (r : ref) (alive_char dead_char : string) : M string :=
  call r (Board_to_string alive_char dead_char).

(** ** pattern_parser.py: format detection, coordinate lists, RLE *)

Module PatternFormats.
Import PatternParser.
Local Open Scope string_scope.

(** [c.lower()] and [s.lower()] on code points below 256. *)
Definition lower_char (c : ascii) : ascii :=
  let n := nat_of_ascii c in
  if ((65 <=? n) && (n <=? 90)
      || (192 <=? n) && (n <=? 222) && negb (n =? 215))%nat
  then ascii_of_nat (n + 32) else c.

Fixpoint lower (s : string) : string :=
  match s with
  | "" => ""
  | String c s' => String (lower_char c) (lower s')
  end.

(** [p in s] *)
Fixpoint contains (p s : string) : bool :=
  String.prefix p s
  || match s with
     | "" => false
     | String _ s' => contains p s'
     end.

(** What [\d] matches below 256. *)
Definition isdigit (c : ascii) : bool :=
  let n := nat_of_ascii c in ((48 <=? n) && (n <=? 57))%nat.

(** The longest prefix of characters satisfying [P], and the rest: what a
    greedy [P*] takes when the character after it cannot satisfy [P]. *)
Fixpoint span (P : ascii → bool) (s : string) : string * string :=
  match s with
  | "" => ("", "")
  | String c s' =>
      if P c then let (taken, rest) := span P s' in (String c taken, rest)
      else ("", s)
  end.

(** [int(text)] for a string of decimal digits, as the two patterns give
    them: the number read, or [ValueError] when the string has more than 4300
    digits, leading zeros counted. *)
Definition int (text : string) : result Z :=
  if (max_str_digits <? Z.of_nat (String.length text))%Z then Raise ValueError
  else
    Ok match NilEmpty.uint_of_string text with
       | Some d => Z.of_uint d
       | None => 0%Z
       end.

(** [re.match(COORDINATE_PATTERN, line)]: the pattern is an optional
    opening parenthesis, white space, a group of one digit or more, white
    space, a comma, white space, a second group of one digit or more, white
    space and an optional closing parenthesis.  The two groups are given.
    The classes that follow one another are disjoint, so the greedy choice is
    the only one that can succeed; what follows the second group always
    matches. *)
Definition match_coordinate (line : string) : option (string * string) :=
  let s := match line with
           | String c s' => if Ascii.eqb c "(" then s' else line
           | "" => line
           end in
  let (_, s) := span isspace s in
  let (row_digits, s) := span isdigit s in
  match row_digits with
  | "" => None
  | _ =>
      let (_, s) := span isspace s in
      match s with
      | String c s' =>
          if Ascii.eqb c "," then
            let (_, s) := span isspace s' in
            let (col_digits, _) := span isdigit s in
            match col_digits with
            | "" => None
            | _ => Some (row_digits, col_digits)
            end
          else None
      | "" => None
      end
  end.

Definition _is_rle_format (content : string) : bool :=
  contains "x = " (lower content) || contains "#Life" content.

Definition _is_coordinate_format (content : string) : bool :=
  let lines :=
    map strip
      (filter (fun line => negb (String.eqb (strip line) "")
                           && negb (startswith line "#"))
         (split_lines content)) in
  match lines with
  | [] => false
  | first :: _ =>
      match match_coordinate first with Some _ => true | None => false end
  end.

(** The body of [for line in content.split('\n')] of [_parse_coordinates],
    on the locals [(cells, name, comments)]; [int] may raise. *)
Fixpoint coordinate_lines (lines : list string)
  (acc : list (Z * Z) * string * list string)
  : result (list (Z * Z) * string * list string) :=
  match lines with
  | [] => Ok acc
  | line :: lines' =>
      let '(cells, name, comments) := acc in
      let line := strip line in
      if String.eqb line "" then coordinate_lines lines' acc
      else if startswith line "#" then
        let comment := strip (slice_from 1 line) in
        if startswith comment "N " then
          coordinate_lines lines' (cells, strip (slice_from 2 comment), comments)
        else
          coordinate_lines lines' (cells, name, (comments ++ [comment])%list)
      else
        match match_coordinate line with
        | Some (row_text, col_text) =>
            match int row_text with
            | Raise e => Raise e
            | Ok row =>
                match int col_text with
                | Raise e => Raise e
                | Ok col =>
                    coordinate_lines lines'
                      ((cells ++ [(row, col)])%list, name, comments)
                end
            end
        | None => coordinate_lines lines' acc
        end
  end.

Definition _parse_coordinates (content filename : string) : result pattern :=
  match coordinate_lines (split_lines content) ([], filename, []) with
  | Raise e => Raise e
  | Ok ([], _, _) => Raise PatternParseError
  | Ok (cells, name, comments) =>
      Ok (mkPattern name cells comments "coordinates")
  end.

(** [re.match(RLE_PATTERN, s)]: the pattern is a group of any number of
    digits followed by a group of one character among b, o, $ and !.  The
    two groups are given. *)
Definition match_rle (s : string) : option (string * ascii) :=
  let (count_str, rest) := span isdigit s in
  match rest with
  | String tag _ =>
      if Ascii.eqb tag "b" || Ascii.eqb tag "o" || Ascii.eqb tag "$"
         || Ascii.eqb tag "!"
      then Some (count_str, tag) else None
  | "" => None
  end.

(** [for _ in range(count): cells.append((row, col)); col += 1] *)
Fixpoint alive_run (count : nat) (row col : Z) (cells : list (Z * Z))
  : Z * list (Z * Z) :=
  match count with
  | O => (col, cells)
  | S count' => alive_run count' row (col + 1) (cells ++ [(row, col)])%list
  end.

(** The loop [while i < len(line)] of [_parse_rle] on the locals
    [(row, col, cells)], [s] being [line[i:]].  A match moves [i] past the
    text matched: the characters after the first are skipped, which [skip]
    counts; no match moves [i] by one.  The count is read before the tag is
    looked at, and [int] may raise.  The tag [!] leaves the loop. *)
Fixpoint rle_line (s : string) (skip : nat) (st : Z * Z * list (Z * Z))
  : result (Z * Z * list (Z * Z)) :=
  match s with
  | "" => Ok st
  | String _ s' =>
      match skip with
      | S skip' => rle_line s' skip' st
      | O =>
          match match_rle s with
          | Some (count_str, tag) =>
              let '(row, col, cells) := st in
              match match count_str with "" => Ok 1%Z | _ => int count_str end with
              | Raise e => Raise e
              | Ok count =>
                  if Ascii.eqb tag "b" then
                    rle_line s' (String.length count_str)
                      (row, (col + count)%Z, cells)
                  else if Ascii.eqb tag "o" then
                    let (col', cells') :=
                      alive_run (Z.to_nat count) row col cells in
                    rle_line s' (String.length count_str) (row, col', cells')
                  else if Ascii.eqb tag "$" then
                    rle_line s' (String.length count_str)
                      ((row + count)%Z, 0%Z, cells)
                  else Ok st
              end
          | None => rle_line s' 0 st
          end
      end
  end.

(** The body of [for line in lines] of [_parse_rle], on the locals
    [(row, col, cells, name, comments)]. *)
Fixpoint rle_lines (lines : list string)
  (acc : Z * Z * list (Z * Z) * string * list string)
  : result (Z * Z * list (Z * Z) * string * list string) :=
  match lines with
  | [] => Ok acc
  | line :: lines' =>
      let '(row, col, cells, name, comments) := acc in
      let line := strip line in
      if startswith line "#" then
        let comment := strip (slice_from 1 line) in
        if startswith comment "N " then
          rle_lines lines'
            (row, col, cells, strip (slice_from 2 comment), comments)
        else
          rle_lines lines' (row, col, cells, name, (comments ++ [comment])%list)
      else if startswith line "x" then rle_lines lines' acc
      else if String.eqb line "" then rle_lines lines' acc
      else
        match rle_line line 0 (row, col, cells) with
        | Raise e => Raise e
        | Ok (row', col', cells') =>
            rle_lines lines' (row', col', cells', name, comments)
        end
  end.

Definition _parse_rle (content filename : string) : result pattern :=
  match rle_lines (split_lines content) (0%Z, 0%Z, [], filename, []) with
  | Raise e => Raise e
  | Ok (_, _, [], _, _) => Raise PatternParseError
  | Ok (_, _, cells, name, comments) => Ok (mkPattern name cells comments "rle")
  end.

(** What [parse] does with the text of a file. *)
Definition parse_content (content filename : string) : result pattern :=
  if _is_rle_format content then _parse_rle content filename
  else if _is_coordinate_format content then _parse_coordinates content filename
  else _parse_plaintext content filename.
End PatternFormats.

(** ** Files: [parse], its cache, [save_pattern] and [load_pattern] *)

(** [FileHandlingError] of exceptions.py, next to the exceptions met so
    far. *)
Inductive io_exn : Type :=
  | FileHandlingError
  | Raised (e : exn).

Inductive outcome (A : Type) : Type :=
  | Returned (a : A)
  | Failed (e : io_exn).
Arguments Returned {A} a.
Arguments Failed {A} e.

(** The files by name, each with the text written to it; the dict [cache]
    of [memoize_pattern]; and the store of boards.  A file is known by the
    name it is opened with, as the cache knows a pattern by the name it was
    parsed under; files can always be opened for writing, and are written
    and read on a system that keeps the line feed as it is. *)
Record World : Type := mkWorld {
  files : list (string * string);
  cache : list (string * PatternParser.pattern);
  boards : list Board
}.

Definition IO (A : Type) : Type := World → outcome A * World.

(** [parse], as decorated by [memoize_pattern]: a name in the cache is
    answered from the cache; otherwise the file is read (a missing file
    raises [FileHandlingError]), its text parsed in the format detected,
    and the pattern, if there is one, stored in the cache and returned. *)
Definition parse (filename : string) : IO PatternParser.pattern :=
  fun w =>
    match dict_get (cache w) filename with
    | Some pattern => (Returned pattern, w)
    | None =>
        match dict_get (files w) filename with
        | None => (Failed FileHandlingError, w)
        | Some written =>
            match PatternFormats.parse_content
                    (PatternParser.read_text written) filename with
            | Raise e => (Failed (Raised e), w)
            | Ok pattern =>
                (Returned pattern,
                 mkWorld (files w) (dict_setitem (cache w) filename pattern)
                   (boards w))
            end
        end
    end.

(** [save_pattern] with its file.  The file is opened for writing, which
    empties it, and the text goes to the file of that name.  The body is
    inside [try ... except Exception]: whatever is raised on the way comes
    out as [FileHandlingError], and the file keeps what was written until
    then. *)
Definition save_pattern_file (filename : string) (board : ref)
    (name : option string) (comments : option (list string)) : IO unit :=
  fun w =>
    match PatternParser.save_pattern board name comments
            (boards w, ""%string) with
    | (Ok _, (h, written)) =>
        (Returned tt,
         mkWorld (dict_setitem (files w) filename written) (cache w) h)
    | (Raise _, (h, written)) =>
        (Failed FileHandlingError,
         mkWorld (dict_setitem (files w) filename written) (cache w) h)
    end.



(** ** Properties of [parse] and [load_pattern] *)


(** X17.  [parse] answers a name it has parsed before from its cache.  A
    missing file that is not in the cache raises [FileHandlingError]; a
    failure, of whatever kind, leaves files, cache and boards as they were
    and is not remembered; a success leaves files and boards as they were,
    and from then on [parse] of the same name returns the same pattern
    without looking at the file, whatever has been written to it since. *)
Theorem parse_is_memoized (w : World) (filename : string) :
  (dict_get (cache w) filename = None → dict_get (files w) filename = None →
   parse filename w = (Failed FileHandlingError, w))
  ∧ (∀ e w1, parse filename w = (Failed e, w1) → w1 = w)
  ∧ (∀ pattern w1,
       parse filename w = (Returned pattern, w1) →
       files w1 = files w ∧ boards w1 = boards w
       ∧ ∀ files' boards',
           parse filename (mkWorld files' (cache w1) boards')
           = (Returned pattern, mkWorld files' (cache w1) boards')).
Proof.
  split; [|split].
  - intros Hc Hf. unfold parse. by rewrite Hc, Hf.
  - intros e w1. unfold parse. repeat case_match; congruence.
  - intros pattern w1. unfold parse.
    destruct (dict_get (cache w) filename) as [p|] eqn:Hc.
    + intros [= <- <-]. do 2 (split; [done|]). intros files' boards'.
      simpl. by rewrite Hc.
    + destruct (dict_get (files w) filename) as [written|]; [|done].
      destruct (PatternFormats.parse_content _ _) as [p|e]; [|done].
      intros [= <- <-]. simpl. do 2 (split; [done|]). intros files' boards'.
      by rewrite dict_get_setitem.
Qed.

(** The board after the loop of [load_pattern]. *)
Definition placed (b : Board) (cells : list (Z * Z))
    (offset_row offset_col : Z) : Board :=
  fold_left (fun b cell =>
               if in_bounds b (cell.1 + offset_row) (cell.2 + offset_col)
               then written b (cell.1 + offset_row) (cell.2 + offset_col) 1
               else b) cells b.


Lemma placed_spec b cells offset_row offset_col :
  wf_board b →
  wf_board (placed b cells offset_row offset_col)
  ∧ width (placed b cells offset_row offset_col) = width b
  ∧ height (placed b cells offset_row offset_col) = height b
  ∧ generation (placed b cells offset_row offset_col) = generation b
  ∧ ∀ row col,
      cell (placed b cells offset_row offset_col) row col = 1
      ↔ cell b row col = 1
        ∨ (in_bounds b row col = true
           ∧ (row - offset_row, col - offset_col) ∈ cells).
Proof.
  revert b. induction cells as [|[r c] cells IH]; intros b Hwf.
  { simpl. do 4 (split; [done|]). intros row col. split; [by left|].
    intros [?|[_ Hin]]; [done|]. by apply elem_of_nil in Hin. }
  unfold placed. cbn [fold_left fst snd]. fold (placed).
  destruct (in_bounds b (r + offset_row) (c + offset_col)) eqn:Hin.
  - set (b1 := written b (r + offset_row) (c + offset_col) 1).
    assert (Hwf1 : wf_board b1) by (apply wf_written; [done|by right]).
    destruct (written_dims b (r + offset_row) (c + offset_col) 1)
      as (Hw & Hh & Hg). fold b1 in Hw, Hh, Hg.
    destruct (IH b1 Hwf1) as (Hwf' & Hw' & Hh' & Hg' & Hcells).
    change (fold_left _ cells b1) with (placed b1 cells offset_row offset_col).
    split; [done|]. do 3 (split; [congruence|]).
    intros row col. rewrite Hcells. unfold b1.
    rewrite cell_written, in_bounds_written, elem_of_cons by done.
    destruct (Z.eqb_spec row (r + offset_row)) as [->|Hr];
      destruct (Z.eqb_spec col (c + offset_col)) as [->|Hc]; simpl.
    + split; [|by left]. intros _. right. split; [done|]. left. f_equal; lia.
    + split; [intros [?|[? ?]]; [by left|right; split; [done|by right]]|].
      intros [?|[? [[= ? ?]|?]]]; [by left|lia|by right].
    + split; [intros [?|[? ?]]; [by left|right; split; [done|by right]]|].
      intros [?|[? [[= ? ?]|?]]]; [by left|lia|by right].
    + split; [intros [?|[? ?]]; [by left|right; split; [done|by right]]|].
      intros [?|[? [[= ? ?]|?]]]; [by left|lia|by right].
  - destruct (IH b Hwf) as (Hwf' & Hw' & Hh' & Hg' & Hcells).
    change (fold_left _ cells b) with (placed b cells offset_row offset_col).
    do 4 (split; [done|]). intros row col. rewrite Hcells, elem_of_cons.
    split; [intros [?|[? ?]]; [by left|right; split; [done|by right]]|].
    intros [?|[Hb [[= Hr Hc]|?]]]; [by left| |by right].
    replace (r + offset_row) with row in Hin by lia.
    replace (c + offset_col) with col in Hin by lia. congruence.
Qed.



(** ** [to_string] and the plain-text parser *)

Section ToString.
Import PatternParser.
Local Open Scope string_scope.

(** The characters the plain-text parser takes for a live cell. *)
Definition alive_mark (c : ascii) : bool :=
  Ascii.eqb c "O" || Ascii.eqb c "*" || Ascii.eqb c "1".

(** The line [to_string] makes of a row. *)
Definition row_line (alive_char dead_char : string) (row : list Z) : string :=
  join (map (fun cell : Z => if (cell =? 0)%Z then dead_char else alive_char) row).

Lemma row_line_cons a d x row :
  row_line (String a "") (String d "") (x :: row)
  = String (if (x =? 0)%Z then d else a) (row_line (String a "") (String d "") row).
Proof. unfold row_line. simpl. by destruct (x =? 0)%Z. Qed.

Lemma all_chars_row_line P a d row :
  P a = true → P d = true →
  all_chars P (row_line (String a "") (String d "") row) = true.
Proof.
  intros Ha Hd. induction row as [|x row IH]; [done|].
  rewrite row_line_cons. simpl. rewrite IH. by destruct (x =? 0)%Z; rewrite ?Ha, ?Hd.
Qed.

Lemma line_cells_row_line a d row r c :
  alive_mark a = true → alive_mark d = false →
  line_cells r c (row_line (String a "") (String d "") row) = row_live r c row.
Proof.
  intros Ha Hd. revert c. induction row as [|x row IH]; intros c; [done|].
  rewrite row_line_cons. simpl. unfold alive_mark in *.
  destruct (x =? 0)%Z; rewrite ?Ha, ?Hd; by rewrite IH.
Qed.

(** White space is no live cell, so stripping it from the end of a line
    takes no cell away. *)
Lemma alive_mark_not_space c : alive_mark c = true → isspace c = false.
Proof.
  unfold alive_mark. rewrite !orb_true_iff.
  intros [[->%Ascii.eqb_eq| ->%Ascii.eqb_eq]| ->%Ascii.eqb_eq]; reflexivity.
Qed.

Lemma line_cells_rstrip r c s : line_cells r c (rstrip s) = line_cells r c s.
Proof.
  revert c. induction s as [|x s IH]; intros c; [done|]. simpl.
  specialize (IH (c + 1)%Z). fold (alive_mark x).
  destruct (rstrip s) as [|y t] eqn:Hs.
  - simpl in IH. destruct (isspace x) eqn:Hx.
    + destruct (alive_mark x) eqn:Hm; [|done].
      apply alive_mark_not_space in Hm. congruence.
    + simpl. fold (alive_mark x). by rewrite <- IH.
  - simpl. fold (alive_mark x). simpl in IH. by rewrite <- IH.
Qed.

Lemma startswith_hash x s :
  startswith (String x s) "#" = if ascii_dec "#" x then true else false.
Proof.
  unfold startswith. cbn [String.prefix].
  destruct (ascii_dec "#" x); [|done]. by destruct s.
Qed.

Lemma startswith_rstrip_other s :
  startswith s "#" = false → startswith (rstrip s) "#" = false.
Proof.
  destruct s as [|x s]; [done|]. rewrite startswith_hash.
  destruct (ascii_dec "#" x) as [|Hx] eqn:Hdec; [done|]. intros _.
  cbn [rstrip]. destruct (rstrip s) as [|y t].
  - destruct (isspace x); [done|]. by rewrite startswith_hash, Hdec.
  - by rewrite startswith_hash, Hdec.
Qed.

Lemma split_lines_single l :
  all_chars (fun c => negb (Ascii.eqb c newline)) l = true →
  split_lines l = [l].
Proof.
  induction l as [|x l IH]; simpl; [done|].
  rewrite andb_true_iff. intros [Hx Hl]. apply negb_true_iff in Hx.
  by rewrite Hx, IH.
Qed.

Lemma split_lines_concat l ls :
  Forall (fun l => all_chars (fun c => negb (Ascii.eqb c newline)) l = true)
    (l :: ls) →
  split_lines (String.concat nl (l :: ls)) = l :: ls.
Proof.
  revert l. induction ls as [|l' ls IH]; intros l Hall.
  - simpl. apply split_lines_single. by inversion Hall.
  - change (String.concat nl (l :: l' :: ls))
      with (l ++ nl ++ String.concat nl (l' :: ls)).
    inversion Hall; subst. by rewrite split_lines_line, IH.
Qed.

(** Lines made of marks for live and dead cells add the coordinates of the
    cells that are not zero. *)
Lemma plaintext_lines_marks a d g :
  alive_mark a = true → alive_mark d = false → d ≠ "#"%char →
  ∀ row cells name comments,
    plaintext_lines (map (row_line (String a "") (String d "")) g) row
      (cells, name, comments)
    = ((cells ++ grid_live row g)%list, name, comments).
Proof.
  intros Ha Hd Hhash. induction g as [|r g IH]; intros row cells name comments.
  - simpl. by rewrite app_nil_r.
  - cbn [map plaintext_lines]. rewrite startswith_rstrip_other.
    2:{ destruct r as [|x r]; [done|].
        rewrite row_line_cons, startswith_hash.
        destruct (x =? 0)%Z.
        - by destruct (ascii_dec "#" d).
        - by destruct (ascii_dec "#" a) as [<-|]. }
    rewrite line_cells_rstrip, line_cells_row_line, IH by done.
    simpl. by rewrite app_assoc.
Qed.

(** X19.  [to_string] with a mark for live cells that the plain-text
    parser knows (O, * or 1) and a mark for dead cells that is none of them,
    nor # nor a line feed, gives a text that [_parse_plaintext] reads back
    exactly: the cells of the pattern are the live cells of the board, at
    their own coordinates, the name is the file name and there is no
    comment; a board without live cells gives [PatternParseError]. *)
Theorem to_string_parses_back (h : heap) (r : ref) (b : Board)
    (a d : ascii) (filename : string) :
  h !! r = Some b → wf_board b →
  alive_mark a = true → alive_mark d = false →
  d ≠ "#"%char → d ≠ newline →
  ∃ text live,
    to_string r (String a "") (String d "") h = (Ok text, h)
    ∧ (∀ row col, (row, col) ∈ live ↔ cell b row col = 1%Z)
    ∧ _parse_plaintext text filename
      = match live with
        | [] => Raise PatternParseError
        | _ => Ok (mkPattern filename live [] "plaintext")
        end.
Proof.
  intros Hr Hwf Ha Hd Hhash Hnl.
  exists (String.concat nl (map (row_line (String a "") (String d "")) (grid b))),
    (grid_live 0 (grid b)).
  split; [by eapply call_read|]. split.
  { intros row col. rewrite (elem_of_grid_live_cell b 0 row col Hwf).
    by rewrite Z.sub_0_r. }
  destruct (grid b) as [|r0 g] eqn:Hg.
  { destruct Hwf as (_ & Hh & Hlen & _). rewrite Hg in Hlen. simpl in Hlen. lia. }
  unfold _parse_plaintext. cbn [map]. rewrite split_lines_concat.
  2:{ apply (Forall_map _ _ (r0 :: g)), Forall_forall. intros row _.
      apply all_chars_row_line.
      - destruct (Ascii.eqb_spec a newline) as [->|]; [done|done].
      - by destruct (Ascii.eqb_spec d newline). }
  change (row_line (String a "") (String d "") r0
          :: map (row_line (String a "") (String d "")) g)
    with (map (row_line (String a "") (String d "")) (r0 :: g)).
  rewrite (plaintext_lines_marks a d (r0 :: g) Ha Hd Hhash 0%Z [] filename []).
  change ([] ++ grid_live 0 (r0 :: g))%list with (grid_live 0 (r0 :: g)).
  reflexivity.
Qed.

Lemma to_string_parses_back_witness :
  ∃ text live,
    to_string 0%nat (String "O" "") (String "." "") [blinker]
    = (Ok text, [blinker])
    ∧ (∀ row col, (row, col) ∈ live ↔ cell blinker row col = 1%Z)
    ∧ _parse_plaintext text "b.txt"
      = match live with
        | [] => Raise PatternParseError
        | _ => Ok (mkPattern "b.txt" live [] "plaintext")
        end.
Proof.
  apply (to_string_parses_back [blinker] 0%nat blinker "O" "." "b.txt");
    [reflexivity | check_wf | reflexivity | reflexivity | discriminate
    | discriminate].
Defined.
End ToString.

(** ** What the three parsers have in common *)

Section ParsedCells.
Import PatternParser PatternFormats.
Local Open Scope string_scope.

(** No cell of the list has a negative coordinate. *)
Definition nonnegative (cells : list (Z * Z)) : Prop :=
  Forall (fun cell => (0 <= cell.1 ∧ 0 <= cell.2)%Z) cells.

Lemma nonnegative_snoc cells row col :
  nonnegative cells → (0 <= row)%Z → (0 <= col)%Z →
  nonnegative (cells ++ [(row, col)]).
Proof.
  intros Hcells Hrow Hcol. apply Forall_app_2; [done|].
  by apply Forall_singleton.
Qed.

Lemma line_cells_nonnegative row col line :
  (0 <= row)%Z → (0 <= col)%Z → nonnegative (line_cells row col line).
Proof.
  intros Hrow. revert col. induction line as [|x line IH]; intros col Hcol.
  - apply Forall_nil_2.
  - cbn [line_cells]. destruct (_ || _).
    + apply Forall_cons_2; [done|]. apply IH. lia.
    + apply IH. lia.
Qed.

Lemma plaintext_lines_nonnegative lines :
  ∀ row cells name comments,
    (0 <= row)%Z → nonnegative cells →
    nonnegative (plaintext_lines lines row (cells, name, comments)).1.1.
Proof.
  induction lines as [|line lines IH]; intros row cells name comments Hrow Hcells;
    [done|].
  cbn [plaintext_lines]. destruct (startswith (rstrip line) "#").
  - destruct (startswith _ "N "); apply IH; (done || lia).
  - apply IH; [lia|]. apply Forall_app_2; [done|].
    by apply line_cells_nonnegative.
Qed.

(** [int] gives a number that is not negative, or raises [ValueError]
    over a text of more than 4300 characters. *)
Lemma int_spec text :
  match int text with
  | Ok n => (0 <= n)%Z
  | Raise e =>
      e = ValueError ∧ (max_str_digits < Z.of_nat (String.length text))%Z
  end.
Proof.
  unfold int.
  destruct (Z.ltb_spec max_str_digits (Z.of_nat (String.length text))); [done|].
  destruct (NilEmpty.uint_of_string text) as [d|]; [|done].
  unfold Z.of_uint. lia.
Qed.

(** The texts the parsers pass to [int] are taken from a line of the
    file, so they are no longer than the file. *)
Lemma length_span P s :
  (String.length (span P s).1 <= String.length s
   ∧ String.length (span P s).2 <= String.length s)%nat.
Proof.
  induction s as [|c s IH]; [done|]. cbn [span].
  destruct (P c); [|simpl; lia].
  destruct (span P s) as [taken rest]. simpl in *. lia.
Qed.

Lemma length_lstrip s : (String.length (lstrip s) <= String.length s)%nat.
Proof.
  induction s as [|c s IH]; [done|]. cbn [lstrip].
  destruct (isspace c); simpl; lia.
Qed.

Lemma length_rstrip s : (String.length (rstrip s) <= String.length s)%nat.
Proof.
  induction s as [|c s IH]; [done|]. cbn [rstrip].
  destruct (rstrip s); [destruct (isspace c)|]; simpl in *; lia.
Qed.

Lemma length_strip s : (String.length (strip s) <= String.length s)%nat.
Proof.
  unfold strip. pose proof (length_rstrip (lstrip s)).
  pose proof (length_lstrip s). lia.
Qed.

Lemma length_split_lines s :
  Forall (fun l => (String.length l <= String.length s)%nat) (split_lines s).
Proof.
  induction s as [|c s IH]; [by apply Forall_singleton|]. cbn [split_lines].
  destruct (Ascii.eqb c newline).
  - apply Forall_cons_2; [simpl; lia|].
    eapply Forall_impl; [exact IH|]. intros l Hl. simpl in *. lia.
  - destruct (split_lines s) as [|l ls]; [apply Forall_singleton; simpl; lia|].
    apply Forall_cons in IH as [Hl Hls]. apply Forall_cons_2; [simpl; lia|].
    eapply Forall_impl; [exact Hls|]. intros l' Hl'. simpl in *. lia.
Qed.

Lemma length_match_coordinate line row_text col_text :
  match_coordinate line = Some (row_text, col_text) →
  (String.length row_text <= String.length line
   ∧ String.length col_text <= String.length line)%nat.
Proof.
  unfold match_coordinate.
  set (s0 := match line with
             | "" => line
             | String c s' => if Ascii.eqb c "(" then s' else line
             end).
  assert (H0 : (String.length s0 <= String.length line)%nat).
  { unfold s0. destruct line as [|c s']; [done|].
    destruct (Ascii.eqb c "("); simpl; lia. }
  pose proof (length_span isspace s0) as [_ H1].
  destruct (span isspace s0) as [sp1 s1]. cbn [fst snd] in H1.
  pose proof (length_span isdigit s1) as [H2 H2'].
  destruct (span isdigit s1) as [row_digits s2]. cbn [fst snd] in H2, H2'.
  destruct row_digits as [|r0 rs]; [done|].
  pose proof (length_span isspace s2) as [_ H3].
  destruct (span isspace s2) as [sp2 s3]. cbn [fst snd] in H3.
  destruct s3 as [|c s4]; [done|]. destruct (Ascii.eqb c ","); [|done].
  pose proof (length_span isspace s4) as [_ H4].
  destruct (span isspace s4) as [sp3 s5]. cbn [fst snd] in H4.
  pose proof (length_span isdigit s5) as [H5 _].
  destruct (span isdigit s5) as [col_digits s6]. cbn [fst snd] in H5.
  destruct col_digits as [|c0 cs]; [done|].
  intros [= <- <-]. simpl in *. lia.
Qed.

Lemma length_match_rle s count_str tag :
  match_rle s = Some (count_str, tag) →
  (String.length count_str <= String.length s)%nat.
Proof.
  unfold match_rle. pose proof (length_span isdigit s) as [H1 _].
  destruct (span isdigit s) as [taken rest]. cbn [fst] in H1.
  destruct rest as [|c rest]; [done|].
  destruct (_ || _); [|done]. by intros [= <- <-].
Qed.

(** What a parser gives on lines of at most [N] characters: cells without
    a negative coordinate, or [ValueError] if [N] is more than 4300. *)
Definition within (N : nat) (cells_of : result (list (Z * Z))) : Prop :=
  match cells_of with
  | Ok cells => nonnegative cells
  | Raise e => e = ValueError ∧ (max_str_digits < Z.of_nat N)%Z
  end.

Lemma coordinate_lines_within N lines :
  Forall (fun l => (String.length l <= N)%nat) lines →
  ∀ cells name comments,
    nonnegative cells →
    within N match coordinate_lines lines (cells, name, comments) with
             | Ok acc => Ok acc.1.1
             | Raise e => Raise e
             end.
Proof.
  induction 1 as [|line lines Hline _ IH]; intros cells name comments Hcells;
    [done|].
  cbn [coordinate_lines]. destruct (String.eqb (strip line) ""); [by apply IH|].
  destruct (startswith (strip line) "#").
  - destruct (startswith _ "N "); by apply IH.
  - destruct (match_coordinate (strip line)) as [[row_text col_text]|] eqn:Hm;
      [|by apply IH].
    apply length_match_coordinate in Hm as [Hr Hc].
    pose proof (length_strip line) as Hs.
    pose proof (int_spec row_text) as Hrow.
    destruct (int row_text) as [row|e].
    + pose proof (int_spec col_text) as Hcol.
      destruct (int col_text) as [col|e].
      * apply IH. by apply nonnegative_snoc.
      * destruct Hcol as [-> Hcol]. split; [done|]. lia.
    + destruct Hrow as [-> Hrow]. split; [done|]. lia.
Qed.

Lemma alive_run_nonnegative count row :
  ∀ col cells,
    (0 <= row)%Z → (0 <= col)%Z → nonnegative cells →
    (0 <= (alive_run count row col cells).1)%Z
    ∧ nonnegative (alive_run count row col cells).2.
Proof.
  induction count as [|count IH]; intros col cells Hrow Hcol Hcells; [done|].
  cbn [alive_run]. apply IH; [done|lia|]. by apply nonnegative_snoc.
Qed.

(** Rows and columns only grow along a line of run-length code. *)
Lemma rle_line_within N s :
  ∀ skip row col cells,
    (String.length s <= N)%nat →
    (0 <= row)%Z → (0 <= col)%Z → nonnegative cells →
    match rle_line s skip (row, col, cells) with
    | Ok (row', col', cells') =>
        (0 <= row')%Z ∧ (0 <= col')%Z ∧ nonnegative cells'
    | Raise e => e = ValueError ∧ (max_str_digits < Z.of_nat N)%Z
    end.
Proof.
  induction s as [|x s IH]; intros skip row col cells Hlen Hrow Hcol Hcells;
    [done|].
  assert (Hs : (String.length s <= N)%nat) by (simpl in Hlen; lia).
  cbn [rle_line]. destruct skip as [|skip]; [|by apply IH].
  destruct (match_rle (String x s)) as [[count_str tag]|] eqn:Hm; [|by apply IH].
  apply length_match_rle in Hm.
  assert (Hcount : match match count_str with
                         | "" => Ok 1%Z
                         | String _ _ => int count_str
                         end with
                   | Ok count => (0 <= count)%Z
                   | Raise e =>
                       e = ValueError ∧ (max_str_digits < Z.of_nat N)%Z
                   end).
  { destruct count_str as [|c cs]; [simpl; lia|].
    pose proof (int_spec (String c cs)) as Hint.
    destruct (int (String c cs)) as [n|e]; [done|].
    destruct Hint as [-> Hint]. split; [done|]. lia. }
  destruct (match count_str with "" => Ok 1%Z | _ => int count_str end)
    as [count|e]; [|done].
  destruct (Ascii.eqb tag "b"); [apply IH; (done || lia)|].
  destruct (Ascii.eqb tag "o").
  - destruct (alive_run (Z.to_nat count) row col cells) as [col' cells'] eqn:Hrun.
    destruct (alive_run_nonnegative (Z.to_nat count) row col cells Hrow Hcol
                Hcells) as [Hc Hn].
    rewrite Hrun in Hc, Hn. by apply IH.
  - destruct (Ascii.eqb tag "$"); [apply IH; (done || lia)|done].
Qed.

Lemma rle_lines_within N lines :
  Forall (fun l => (String.length l <= N)%nat) lines →
  ∀ row col cells name comments,
    (0 <= row)%Z → (0 <= col)%Z → nonnegative cells →
    within N match rle_lines lines (row, col, cells, name, comments) with
             | Ok acc => Ok acc.1.1.2
             | Raise e => Raise e
             end.
Proof.
  induction 1 as [|line lines Hline _ IH];
    intros row col cells name comments Hrow Hcol Hcells; [done|].
  cbn [rle_lines]. destruct (startswith (strip line) "#").
  { destruct (startswith _ "N "); by apply IH. }
  destruct (startswith (strip line) "x"); [by apply IH|].
  destruct (String.eqb (strip line) ""); [by apply IH|].
  pose proof (length_strip line) as Hs.
  pose proof (rle_line_within N (strip line) 0 row col cells
                ltac:(lia) Hrow Hcol Hcells) as Hrun.
  destruct (rle_line (strip line) 0 (row, col, cells))
    as [[[row' col'] cells']|e]; [|done].
  destruct Hrun as (? & ? & ?). by apply IH.
Qed.

(** X20.  Whatever the text and whichever of the three formats is
    detected, [parse] either gives a pattern with at least one cell, no cell
    of which has a negative row or column, the format recorded being the one
    of the parser that ran; or raises [PatternParseError]; or, and that only
    for a text of more than 4300 characters, raises the [ValueError] of
    [int] over a numeral too long to convert. *)
Theorem parsed_cells_nonnegative (content filename : string) :
  match parse_content content filename with
  | Raise e =>
      e = PatternParseError
      ∨ (e = ValueError
         ∧ (max_str_digits < Z.of_nat (String.length content))%Z)
  | Ok p =>
      cells p ≠ []
      ∧ (∀ row col, (row, col) ∈ cells p → (0 <= row ∧ 0 <= col)%Z)
      ∧ format p
        = (if _is_rle_format content then "rle"
           else if _is_coordinate_format content then "coordinates"
           else "plaintext")
  end.
Proof.
  assert (Hin : ∀ cells0 : list (Z * Z), nonnegative cells0 →
            ∀ row col, (row, col) ∈ cells0 → (0 <= row ∧ 0 <= col)%Z).
  { intros cells0 Hn row col Hrc.
    exact (proj1 (Forall_forall _ _) Hn (row, col) Hrc). }
  unfold parse_content. destruct (_is_rle_format content).
  - unfold _parse_rle.
    pose proof (rle_lines_within (String.length content) (split_lines content)
                  (length_split_lines content) 0 0 [] filename []
                  (Z.le_refl 0) (Z.le_refl 0) (Forall_nil_2 _)) as Hn.
    destruct (rle_lines _ _) as [[[[[row col] cells0] name0] comments0]|e];
      [|by right].
    destruct cells0 as [|cell cells0]; [by left|].
    split; [done|]. split; [by apply Hin|done].
  - destruct (_is_coordinate_format content).
    + unfold _parse_coordinates.
      pose proof (coordinate_lines_within (String.length content)
                    (split_lines content) (length_split_lines content)
                    [] filename [] (Forall_nil_2 _)) as Hn.
      destruct (coordinate_lines _ _) as [[[cells0 name0] comments0]|e];
        [|by right].
      destruct cells0 as [|cell cells0]; [by left|].
      split; [done|]. split; [by apply Hin|done].
    + unfold _parse_plaintext.
      pose proof (plaintext_lines_nonnegative (split_lines content) 0 [] filename []
                    (Z.le_refl 0) (Forall_nil_2 _)) as Hn.
      destruct (plaintext_lines _ _ _) as [[cells0 name0] comments0].
      destruct cells0 as [|cell cells0]; [by left|].
      split; [done|]. split; [by apply Hin|done].
Qed.
End ParsedCells.

(** ** Numbers that can be written *)

From Stdlib Require DecimalPos DecimalFacts.








(** ** Saving a board and loading it again *)

Section SaveLoad.
Import PatternParser PatternFormats.
Local Open Scope string_scope.




Lemma contains_unfold p s :
  contains p s
  = String.prefix p s
    || match s with "" => false | String _ s' => contains p s' end.
Proof. by destruct s. Qed.



Lemma lower_app a b : lower (a ++ b) = lower a ++ lower b.
Proof. induction a as [|x a IH]; simpl; [done|]. by rewrite IH. Qed.


Lemma all_chars_lower P s :
  all_chars P (lower s) = all_chars (fun c => P (lower_char c)) s.
Proof. induction s as [|x s IH]; simpl; [done|]. by rewrite IH. Qed.

(** A pattern whose first character is not in the text is not found. *)
Lemma contains_without c p s :
  all_chars (fun x => negb (Ascii.eqb x c)) s = true →
  contains (String c p) s = false.
Proof.
  induction s as [|x s IH]; [done|]. simpl all_chars.
  rewrite andb_true_iff. intros [Hx Hs].
  apply negb_true_iff, Ascii.eqb_neq in Hx.
  rewrite contains_unfold, (IH Hs). cbn [String.prefix].
  destruct (ascii_dec c x); [congruence|done].
Qed.









Lemma lstrip_no_space s :
  all_chars (fun c => negb (isspace c)) s = true → lstrip s = s.
Proof.
  destruct s as [|x s]; simpl; [done|].
  rewrite andb_true_iff. intros [Hx _]. apply negb_true_iff in Hx.
  by rewrite Hx.
Qed.



(** The lines kept by [_is_coordinate_format]. *)
Definition kept (line : string) : Prop :=
  negb (String.eqb (strip line) "") && negb (startswith line "#").
















End SaveLoad.

(** ** Files of coordinates *)

(** A property of each character of a short list, by trying them. *)
Ltac each_char :=
  let c := fresh "c" in
  let Hc := fresh "Hc" in
  intros c Hc; simpl in Hc;
  repeat (destruct Hc as [<-|Hc]; [reflexivity|]); done.

Section CoordinateFiles.
Import PatternParser PatternFormats.
Local Open Scope string_scope.

(** A line of a coordinate file in one of the two forms the parser is
    written for: row,col or (row,col). *)
Definition coordinate_line (entry : bool * Z * Z) : string :=
  let '(paren, row, col) := entry in
  if paren then "(" ++ str row ++ "," ++ str col ++ ")"
  else str row ++ "," ++ str col.

Definition coordinate_file (entries : list (bool * Z * Z)) : string :=
  join (map (fun entry => coordinate_line entry ++ nl) entries).

(** The decimal numeral of a number that is not negative consists of
    digits, has one at least, and [int] reads the number back. *)
Lemma str_digits n :
  (0 <= n)%Z → all_chars isdigit (str n) = true ∧ str n ≠ "".
Proof.
  assert (Hd : ∀ d, all_chars isdigit (NilEmpty.string_of_uint d) = true).
  { induction d; simpl; rewrite ?IHd; done. }
  intros Hn. unfold str. destruct n as [|p|p]; [done| |lia].
  cbn [Z.to_int NilZero.string_of_int]. unfold NilZero.string_of_uint.
  pose proof (DecimalPos.Unsigned.to_uint_nonnil p) as Hnil.
  destruct (Pos.to_uint p) eqn:Hp; try done; (split; [apply Hd|done]).
Qed.

Lemma digits_nonneg n : (0 <= n)%Z → digits n = Z.of_nat (String.length (str n)).
Proof. intros Hn. unfold digits. by rewrite Z.abs_eq. Qed.

Lemma int_str n :
  (0 <= n)%Z → (digits n <= max_str_digits)%Z → int (str n) = Ok n.
Proof.
  intros Hn Hd. unfold int. rewrite <- digits_nonneg by done.
  destruct (Z.ltb_spec max_str_digits (digits n)); [lia|]. f_equal.
  unfold str. destruct n as [|p|p]; [done| |lia].
  cbn [Z.to_int NilZero.string_of_int]. unfold NilZero.string_of_uint.
  pose proof (DecimalPos.Unsigned.to_uint_nonnil p) as Hnil.
  assert (Hs : NilEmpty.uint_of_string (NilEmpty.string_of_uint (Pos.to_uint p))
               = Some (Pos.to_uint p)) by apply NilEmpty.usu.
  destruct (Pos.to_uint p) eqn:Hp; try done;
    rewrite Hs, <- Hp; unfold Z.of_uint;
    by rewrite DecimalPos.Unsigned.of_to.
Qed.

Lemma int_str_raise n :
  (0 <= n)%Z → (max_str_digits < digits n)%Z → int (str n) = Raise ValueError.
Proof.
  intros Hn Hd. unfold int. rewrite <- digits_nonneg by done.
  by destruct (Z.ltb_spec max_str_digits (digits n)); [|lia].
Qed.

(** A greedy star takes a run of matching characters whole when what
    follows does not match. *)
Lemma span_app P a b :
  all_chars P a = true →
  match b with "" => true | String c _ => negb (P c) end = true →
  span P (a ++ b) = (a, b).
Proof.
  intros Ha Hb. induction a as [|x a IH].
  - destruct b as [|c b]; [done|]. simpl. apply negb_true_iff in Hb.
    by rewrite Hb.
  - simpl in Ha. apply andb_true_iff in Ha as [Hx Ha].
    cbn [String.append span]. by rewrite Hx, IH.
Qed.

Lemma span_all P a : all_chars P a = true → span P a = (a, "").
Proof.
  intros Ha. rewrite <- (append_nil_r a) at 1. by apply span_app.
Qed.

Lemma digit_first n rest :
  (0 <= n)%Z →
  ∃ d s, str n ++ rest = String d s ∧ isdigit d = true.
Proof.
  intros Hn. destruct (str_digits n Hn) as [Hall Hne].
  destruct (str n) as [|d s]; [done|]. simpl in Hall.
  apply andb_true_iff in Hall as [Hd _]. by exists d, (s ++ rest).
Qed.

Lemma isdigit_other d :
  isdigit d = true →
  isspace d = false ∧ Ascii.eqb d "(" = false ∧ Ascii.eqb d "#" = false.
Proof.
  destruct d as [[] [] [] [] [] [] [] []]; vm_compute; intros; done.
Qed.

Lemma match_coordinate_line paren row col :
  (0 <= row)%Z → (0 <= col)%Z →
  match_coordinate (coordinate_line (paren, row, col))
  = Some (str row, str col).
Proof.
  intros Hrow Hcol.
  destruct (str_digits row Hrow) as [Hrd Hrn].
  destruct (str_digits col Hcol) as [Hcd Hcn].
  assert (Hinner : ∀ tail,
            match tail with "" => true | String c _ => negb (isdigit c) end = true →
            (let (_, s) := span isspace (str row ++ "," ++ str col ++ tail) in
             let (row_digits, s0) := span isdigit s in
             match row_digits with
             | "" => None
             | String _ _ =>
                 let (_, s1) := span isspace s0 in
                 match s1 with
                 | "" => None
                 | String c s' =>
                     if Ascii.eqb c ","
                     then
                       let (_, s2) := span isspace s' in
                       let (col_digits, _) := span isdigit s2 in
                       match col_digits with
                       | "" => None
                       | String _ _ => Some (row_digits, col_digits)
                       end
                     else None
                 end
             end) = Some (str row, str col)).
  { intros tail Htail.
    destruct (digit_first row ("," ++ str col ++ tail) Hrow)
      as (d & s & Hs & [Hsp _]%isdigit_other).
    rewrite Hs. cbn [span]. rewrite Hsp. rewrite <- Hs.
    rewrite (span_app isdigit (str row)) by done.
    destruct (str row) as [|r0 rs] eqn:Hr; [done|].
    cbn [String.append span]. change (isspace ",") with false. cbn iota.
    change (Ascii.eqb "," ",") with true. cbn iota.
    destruct (digit_first col tail Hcol)
      as (d' & s' & Hs' & [Hsp' _]%isdigit_other).
    rewrite Hs'. cbn [span]. rewrite Hsp'. rewrite <- Hs'.
    rewrite (span_app isdigit (str col)) by done.
    by destruct (str col). }
  unfold match_coordinate, coordinate_line. destruct paren.
  - change ("(" ++ str row ++ "," ++ str col ++ ")")
      with (String "(" (str row ++ "," ++ str col ++ ")")).
    change (Ascii.eqb "(" "(") with true. cbn iota. by apply Hinner.
  - destruct (digit_first row ("," ++ str col) Hrow)
      as (d & s & Hs & (_ & Hparen & _)%isdigit_other).
    rewrite Hs, Hparen, <- Hs.
    rewrite <- (append_nil_r (str col)) at 1. by apply Hinner.
Qed.
Lemma all_chars_coordinate_line P entry :
  (∀ c, In c (list_ascii_of_string "-0123456789,()") → P c = true) →
  all_chars P (coordinate_line entry) = true.
Proof.
  intros HP. destruct entry as [[paren row] col].
  assert (Hstr : ∀ n, all_chars P (str n) = true).
  { intros n. apply all_chars_str. intros c Hc. apply HP. simpl in *. tauto. }
  unfold coordinate_line.
  destruct paren; rewrite !all_chars_app, !Hstr; simpl;
    rewrite !HP by (simpl; tauto); done.
Qed.

Lemma strip_coordinate_line entry :
  strip (coordinate_line entry) = coordinate_line entry.
Proof.
  unfold strip.
  rewrite lstrip_no_space by (apply all_chars_coordinate_line; each_char).
  apply rstrip_no_space, all_chars_coordinate_line. each_char.
Qed.

Lemma coordinate_line_first paren row col :
  (0 <= row)%Z →
  ∃ d s, coordinate_line (paren, row, col) = String d s ∧ d ≠ "#"%char.
Proof.
  intros Hrow. unfold coordinate_line. destruct paren.
  - by eexists "("%char, _.
  - destruct (digit_first row ("," ++ str col) Hrow)
      as (d & s & Hs & (_ & _ & Hhash)%isdigit_other).
    exists d, s. split; [done|]. by apply Ascii.eqb_neq.
Qed.

Lemma kept_coordinate_line paren row col :
  (0 <= row)%Z → kept (coordinate_line (paren, row, col)).
Proof.
  intros Hrow. unfold kept. rewrite strip_coordinate_line.
  destruct (coordinate_line_first paren row col Hrow) as (d & s & -> & Hd).
  rewrite startswith_hash. by destruct (ascii_dec "#" d).
Qed.

(** A number that is not negative and has at most 4300 digits. *)
Definition readable (n : Z) : Prop :=
  (0 <= n)%Z ∧ (digits n <= max_str_digits)%Z.

(** Every line of the two forms gives its cell, in the order of the
    lines. *)
Lemma coordinate_lines_entries entries :
  Forall (fun entry : bool * Z * Z => readable entry.1.2 ∧ readable entry.2)
    entries →
  ∀ cells name comments,
    coordinate_lines (map coordinate_line entries ++ [""]) (cells, name, comments)
    = Ok ((cells ++ map (fun entry : bool * Z * Z => (entry.1.2, entry.2)) entries)%list,
          name, comments).
Proof.
  induction 1 as [|[[paren row] col] entries [[Hrow Hrd] [Hcol Hcd]] _ IH];
    intros cells name comments.
  - simpl. by rewrite app_nil_r.
  - cbn [map app coordinate_lines]. rewrite strip_coordinate_line.
    cbn [fst snd] in *.
    rewrite match_coordinate_line, !int_str by done.
    destruct (coordinate_line_first paren row col Hrow) as (d & s & -> & Hd).
    rewrite startswith_hash. destruct (ascii_dec "#" d); [done|].
    cbn [String.eqb]. rewrite IH. cbn [fst snd]. by rewrite <- app_assoc.
Qed.

(** A numeral of more than 4300 digits stops the parser. *)
Lemma coordinate_lines_too_long entries :
  Forall (fun entry : bool * Z * Z => (0 <= entry.1.2 ∧ 0 <= entry.2)%Z) entries →
  Exists (fun entry : bool * Z * Z =>
            (max_str_digits < digits entry.1.2 ∨ max_str_digits < digits entry.2)%Z)
    entries →
  ∀ cells name comments,
    coordinate_lines (map coordinate_line entries ++ [""]) (cells, name, comments)
    = Raise ValueError.
Proof.
  induction 1 as [|[[paren row] col] entries [Hrow Hcol] _ IH];
    intros Hlong cells name comments.
  - by apply Exists_nil in Hlong.
  - cbn [map app coordinate_lines]. rewrite strip_coordinate_line.
    cbn [fst snd] in *. rewrite match_coordinate_line by done.
    destruct (coordinate_line_first paren row col Hrow) as (d & s & -> & Hd).
    rewrite startswith_hash. destruct (ascii_dec "#" d); [done|].
    cbn [String.eqb].
    destruct (Z.ltb_spec max_str_digits (digits row)) as [Hr|Hr];
      [by rewrite int_str_raise|].
    rewrite int_str by done.
    destruct (Z.ltb_spec max_str_digits (digits col)) as [Hc|Hc];
      [by rewrite int_str_raise|].
    rewrite int_str by done. apply IH.
    apply Exists_cons in Hlong as [[?|?]|?]; [simpl in *; lia..|done].
Qed.

(** X23.  A file of coordinates written in the two forms the parser is
    made for, row,col or (row,col), one cell on a line, with rows and
    columns that are not negative: [parse] takes it for a coordinate list.
    If every numeral has at most 4300 digits, it gives exactly these cells,
    in the order of the lines, under the name of the file and with no
    comment; if one has more, [int] raises [ValueError], which is what comes
    out. *)
Theorem coordinate_file_parses (entries : list (bool * Z * Z))
    (filename : string) :
  entries ≠ [] →
  Forall (fun entry : bool * Z * Z => (0 <= entry.1.2 ∧ 0 <= entry.2)%Z) entries →
  (Forall (fun entry : bool * Z * Z =>
             (digits entry.1.2 <= max_str_digits
              ∧ digits entry.2 <= max_str_digits)%Z) entries →
   parse_content (coordinate_file entries) filename
   = Ok (mkPattern filename
           (map (fun entry : bool * Z * Z => (entry.1.2, entry.2)) entries) []
           "coordinates"))
  ∧ (Exists (fun entry : bool * Z * Z =>
               (max_str_digits < digits entry.1.2
                ∨ max_str_digits < digits entry.2)%Z) entries →
     parse_content (coordinate_file entries) filename = Raise ValueError).
Proof.
  intros Hne Hall. unfold coordinate_file.
  assert (Hchars : ∀ P, P newline = true →
            (∀ c, In c (list_ascii_of_string "-0123456789,()") → P c = true) →
            all_chars P (join (map (fun l => l ++ nl) (map coordinate_line entries)))
            = true).
  { intros P Hnl HP. apply all_chars_lines; [done|].
    apply Forall_map, Forall_forall. intros entry _.
    by apply all_chars_coordinate_line. }
  assert (Hlines : split_lines
                     (join (map (fun entry => coordinate_line entry ++ nl) entries))
                   = (map coordinate_line entries ++ [""])%list).
  { rewrite <- (map_map coordinate_line (fun l => l ++ nl)).
    rewrite <- (append_nil_r (join _)), split_lines_join; [done|].
    apply Forall_map, Forall_forall. intros entry _.
    apply all_chars_coordinate_line. each_char. }
  unfold parse_content.
  replace (_is_rle_format _) with false.
  2:{ symmetry. unfold _is_rle_format.
      rewrite <- (map_map coordinate_line (fun l => l ++ nl)).
      rewrite !contains_without; [done| |].
      - apply Hchars; [done|each_char].
      - rewrite all_chars_lower. apply Hchars; [done|each_char]. }
  replace (_is_coordinate_format _) with true.
  2:{ symmetry. unfold _is_coordinate_format. rewrite Hlines.
      change (filter _ ?l) with (filter kept l).
      destruct entries as [|[[paren row] col] entries]; [done|].
      apply Forall_cons in Hall as [[Hrow Hcol] _]. cbn [map app fst snd] in *.
      rewrite filter_cons_True by (by apply kept_coordinate_line).
      cbn [map]. rewrite strip_coordinate_line.
      by rewrite match_coordinate_line. }
  unfold _parse_coordinates. rewrite Hlines. split.
  - intros Hshort. rewrite coordinate_lines_entries.
    + simpl app. destruct entries as [|entry entries]; done.
    + apply Forall_forall. intros entry Hentry.
      pose proof (proj1 (Forall_forall _ _) Hall entry Hentry) as [? ?].
      pose proof (proj1 (Forall_forall _ _) Hshort entry Hentry) as [? ?].
      by repeat split.
  - intros Hlong. by rewrite coordinate_lines_too_long.
Qed.

Lemma coordinate_file_parses_witness :
  (Forall (fun entry : bool * Z * Z =>
             (digits entry.1.2 <= max_str_digits
              ∧ digits entry.2 <= max_str_digits)%Z)
     [(false, 1, 2); (true, 10, 0)]%Z →
   parse_content (coordinate_file [(false, 1, 2); (true, 10, 0)]%Z) "cells.txt"
   = Ok (mkPattern "cells.txt"
           (map (fun entry : bool * Z * Z => (entry.1.2, entry.2))
              [(false, 1, 2); (true, 10, 0)]%Z) []
           "coordinates"))
  ∧ (Exists (fun entry : bool * Z * Z =>
               (max_str_digits < digits entry.1.2
                ∨ max_str_digits < digits entry.2)%Z)
       [(false, 1, 2); (true, 10, 0)]%Z →
     parse_content (coordinate_file [(false, 1, 2); (true, 10, 0)]%Z) "cells.txt"
     = Raise ValueError).
Proof.
  apply (coordinate_file_parses [(false, 1, 2); (true, 10, 0)]%Z "cells.txt");
    [discriminate | repeat constructor; simpl; lia].
Defined.
End CoordinateFiles.

(** ** Files of run-length code *)

Section RunLengthFiles.
Import PatternParser PatternFormats.
Local Open Scope string_scope.

(** The four tags, and an item of run-length code: a tag with its count,
    [None] where the count is left out. *)
Inductive rle_tag : Type := DeadRun | AliveRun | EndOfRow | EndOfPattern.

Definition tag_char (tag : rle_tag) : ascii :=
  match tag with
  | DeadRun => "b"
  | AliveRun => "o"
  | EndOfRow => "$"
  | EndOfPattern => "!"
  end.

Definition item_text (item : option Z * rle_tag) : string :=
  match item.1 with None => "" | Some n => str n end
  ++ String (tag_char item.2) "".

Definition items_text (items : list (option Z * rle_tag)) : string :=
  join (map item_text items).

Definition count_of (item : option Z * rle_tag) : Z :=
  match item.1 with None => 1 | Some n => n end.

Definition counted (item : option Z * rle_tag) : Prop :=
  match item.1 with
  | None => True
  | Some n => (0 <= n)%Z ∧ (digits n <= max_str_digits)%Z
  end.

(** The cells of a run of [n] live cells from column [col] of [row]. *)
Fixpoint run_cells (row col : Z) (n : nat) : list (Z * Z) :=
  match n with
  | O => []
  | S n' => (row, col) :: run_cells row (col + 1) n'
  end.

(** What a line of items stands for, from the row, the column and the
    cells reached: a dead run moves right, a live run adds its cells and
    moves right, the end of a row moves down and back to column 0, and the
    end of the pattern ends the line. *)
Fixpoint run_items (items : list (option Z * rle_tag))
  (st : Z * Z * list (Z * Z)) : Z * Z * list (Z * Z) :=
  match items with
  | [] => st
  | item :: items' =>
      let '(row, col, cells) := st in
      match item.2 with
      | DeadRun => run_items items' (row, (col + count_of item)%Z, cells)
      | AliveRun =>
          run_items items'
            (row, (col + count_of item)%Z,
             (cells ++ run_cells row col (Z.to_nat (count_of item)))%list)
      | EndOfRow => run_items items' ((row + count_of item)%Z, 0%Z, cells)
      | EndOfPattern => st
      end
  end.

(** Lines of items, each from where the one before has left off. *)
Definition run_groups (groups : list (list (option Z * rle_tag)))
  (st : Z * Z * list (Z * Z)) : Z * Z * list (Z * Z) :=
  fold_left (fun st items => run_items items st) groups st.

Lemma alive_run_spec n row :
  ∀ col cells,
    alive_run n row col cells
    = ((col + Z.of_nat n)%Z, (cells ++ run_cells row col n)%list).
Proof.
  induction n as [|n IH]; intros col cells.
  - simpl. by rewrite Z.add_0_r, app_nil_r.
  - cbn [alive_run run_cells]. rewrite IH, <- app_assoc. f_equal. lia.
Qed.

(** After a match the loop passes over the text matched. *)
Lemma rle_line_skip a rest st :
  rle_line (a ++ rest) (String.length a) st = rle_line rest 0 st.
Proof. induction a as [|x a IH]; [done|]. exact IH. Qed.

Lemma length_snoc a c : String.length (a ++ String c "") = S (String.length a).
Proof. induction a as [|x a IH]; simpl; [done|]. by rewrite IH. Qed.

Lemma match_rle_item item rest :
  counted item →
  match_rle (item_text item ++ rest)
  = Some (match item.1 with None => "" | Some n => str n end, tag_char item.2).
Proof.
  intros Hcount. unfold match_rle, item_text. rewrite append_assoc.
  rewrite span_app.
  - by destruct item as [count []].
  - destruct item as [[n|] tag]; [|done]. by apply str_digits, Hcount.
  - by destruct item as [count []].
Qed.

(** One item is read whole, its count as a decimal number. *)
Lemma rle_line_item item rest row col cells :
  counted item →
  rle_line (item_text item ++ rest) 0 (row, col, cells)
  = match item.2 with
    | DeadRun => rle_line rest 0 (row, (col + count_of item)%Z, cells)
    | AliveRun =>
        rle_line rest 0
          (row, (col + count_of item)%Z,
           (cells ++ run_cells row col (Z.to_nat (count_of item)))%list)
    | EndOfRow => rle_line rest 0 ((row + count_of item)%Z, 0%Z, cells)
    | EndOfPattern => Ok (row, col, cells)
    end.
Proof.
  intros Hcount. pose proof (match_rle_item item rest Hcount) as Hmatch.
  destruct item as [[n|] tag]; unfold counted, count_of, item_text in *;
    cbn [fst snd] in *.
  - destruct Hcount as [Hcount Hdigits].
    destruct (str_digits n Hcount) as [_ Hne].
    assert (Hrest : ∀ st,
              match str n ++ String (tag_char tag) "" ++ rest with
              | "" => Ok st
              | String _ s' => rle_line s' (String.length (str n)) st
              end = rle_line rest 0 st).
    { intros st. destruct (str n) as [|d ds]; [done|].
      cbn [String.append String.length].
      rewrite <- (rle_line_skip (ds ++ String (tag_char tag) "") rest st).
      by rewrite length_snoc, append_assoc. }
    rewrite append_assoc in Hmatch |- *.
    destruct (str n ++ String (tag_char tag) "" ++ rest) as [|x s'] eqn:Htext.
    { by destruct (str n). }
    cbn [rle_line]. rewrite Hmatch.
    destruct (str n) as [|d ds] eqn:Hstr; [done|]. rewrite <- Hstr in *.
    rewrite int_str by done.
    destruct tag; cbn [tag_char];
      repeat match goal with
             | |- context [Ascii.eqb ?a ?b] =>
                 let v := eval vm_compute in (Ascii.eqb a b) in
                 change (Ascii.eqb a b) with v
             end; cbn iota; rewrite ?alive_run_spec, ?Z2Nat.id by done;
      try apply Hrest; done.
  - cbn [String.append] in *. cbn [rle_line]. rewrite Hmatch.
    destruct tag; cbn [tag_char];
      repeat match goal with
             | |- context [Ascii.eqb ?a ?b] =>
                 let v := eval vm_compute in (Ascii.eqb a b) in
                 change (Ascii.eqb a b) with v
             end; cbn iota; rewrite ?alive_run_spec; done.
Qed.

Lemma rle_line_items items :
  Forall counted items →
  ∀ st, rle_line (items_text items) 0 st = Ok (run_items items st).
Proof.
  induction 1 as [|item items Hcount _ IH]; intros [[row col] cells].
  - done.
  - unfold items_text. cbn [map join fold_right]. fold (join (map item_text items)).
    fold (items_text items). rewrite rle_line_item by done.
    cbn [run_items]. destruct (item.2); by rewrite ?IH.
Qed.
(** A file of run-length code: the header line, which begins with the
    letter x, a space, the equals sign and a space, then the lines of
    items. *)
Definition rle_file (header_rest : string)
    (groups : list (list (option Z * rle_tag))) : string :=
  "x = " ++ header_rest ++ nl
  ++ join (map (fun items => items_text items ++ nl) groups).

Lemma all_chars_items_text P items :
  (∀ c, In c (list_ascii_of_string "-0123456789bo$!") → P c = true) →
  all_chars P (items_text items) = true.
Proof.
  intros HP. unfold items_text. induction items as [|[count tag] items IH]; [done|].
  cbn [map join fold_right]. fold (join (map item_text items)).
  rewrite all_chars_app, IH, andb_true_r. unfold item_text. cbn [fst snd].
  rewrite all_chars_app. apply andb_true_iff. split.
  - destruct count as [n|]; [|done]. apply all_chars_str.
    intros c Hc. apply HP. simpl in *. tauto.
  - simpl. rewrite andb_true_r. apply HP. destruct tag; simpl; tauto.
Qed.

Lemma strip_items_text items : strip (items_text items) = items_text items.
Proof.
  unfold strip.
  rewrite lstrip_no_space by (apply all_chars_items_text; each_char).
  apply rstrip_no_space, all_chars_items_text. each_char.
Qed.

Lemma items_text_first item items :
  counted item →
  ∃ d s, items_text (item :: items) = String d s
         ∧ d ≠ "#"%char ∧ d ≠ "x"%char.
Proof.
  intros Hcount. unfold items_text. cbn [map join fold_right].
  fold (join (map item_text items)). unfold item_text, counted in *.
  destruct item as [[n|] tag]; cbn [fst snd] in *.
  - rewrite !append_assoc.
    destruct (digit_first n (String (tag_char tag) "" ++ join (map item_text items))
                (proj1 Hcount)) as (d & s & Hs & Hd).
    unfold item_text in Hs. rewrite Hs. exists d, s. split; [done|].
    destruct d as [[] [] [] [] [] [] [] []]; vm_compute in Hd; try done;
      split; discriminate.
  - eexists _, _. split; [reflexivity|]. destruct tag; split; discriminate.
Qed.

Lemma rle_lines_groups groups :
  Forall (Forall counted) groups →
  ∀ row col cells name comments,
    rle_lines (map items_text groups ++ [""]) (row, col, cells, name, comments)
    = Ok (run_groups groups (row, col, cells), name, comments).
Proof.
  induction 1 as [|items groups Hitems _ IH]; intros row col cells name comments;
    [done|].
  cbn [map app rle_lines]. rewrite strip_items_text. unfold run_groups.
  cbn [fold_left]. fold (run_groups groups (run_items items (row, col, cells))).
  destruct items as [|item items].
  - cbn. apply IH.
  - apply Forall_cons in Hitems as Hboth. destruct Hboth as [Hitem _].
    rewrite (rle_line_items (item :: items) Hitems).
    destruct (items_text_first item items Hitem) as (d & s & -> & Hhash & Hx).
    rewrite startswith_hash. destruct (ascii_dec "#" d); [done|].
    unfold startswith. cbn [String.prefix].
    destruct (ascii_dec "x" d); [done|]. cbn [String.eqb].
    destruct (run_items (item :: items) (row, col, cells)) as [[row' col'] cells'].
    apply IH.
Qed.

Lemma prefix_app p s : String.prefix p (p ++ s) = true.
Proof.
  induction p as [|a p IH]; [by destruct s|].
  cbn [String.append String.prefix]. by destruct (ascii_dec a a).
Qed.

Lemma strip_first c s :
  isspace c = false → ∃ t, strip (String c s) = String c t.
Proof.
  intros Hc. unfold strip. cbn [lstrip]. rewrite Hc. cbn [rstrip].
  destruct (rstrip s) as [|y t]; [|by eexists]. rewrite Hc. by eexists.
Qed.

(** X24.  A file of run-length code: a header line that begins with the
    letter x, a space, the equals sign and a space, then lines made of items,
    each a tag b, o, $ or ! with a decimal count before it or none, the
    counts not negative and of at most 4300 digits, which is as far as [int]
    reads.  [parse]
    takes the file for run-length code, passes over the header and reads
    every item whole, the count as a number and 1 where it is left out: b
    moves right by the count, o adds that many cells from the current column
    and moves right, $ moves down by the count and back to column 0, and !
    ends its line only, the next line going on from the same row and
    column.  The cells come in the order they are met; a file without any
    gives [PatternParseError]. *)
Theorem rle_file_parses (header_rest : string)
    (groups : list (list (option Z * rle_tag))) (filename : string) :
  all_chars (fun c => negb (Ascii.eqb c newline)) header_rest = true →
  Forall (Forall counted) groups →
  parse_content (rle_file header_rest groups) filename
  = match (run_groups groups (0%Z, 0%Z, [])).2 with
    | [] => Raise PatternParseError
    | cells => Ok (mkPattern filename cells [] "rle")
    end.
Proof.
  intros Hheader Hgroups. unfold parse_content, rle_file.
  replace (_is_rle_format _) with true.
  2:{ symmetry. unfold _is_rle_format. apply orb_true_iff. left.
      rewrite lower_app, contains_unfold.
      change (lower "x = ") with "x = ". by rewrite prefix_app. }
  unfold _parse_rle. rewrite <- append_assoc, split_lines_line.
  2:{ rewrite all_chars_app. by rewrite Hheader. }
  rewrite <- (map_map items_text (fun l => l ++ nl)).
  rewrite <- (append_nil_r (join _)), split_lines_join.
  2:{ apply Forall_map, Forall_forall. intros items _.
      apply all_chars_items_text. each_char. }
  cbn [split_lines rle_lines].
  destruct (strip_first "x" (" = " ++ header_rest) eq_refl) as [t Ht].
  change ("x = " ++ header_rest) with (String "x" (" = " ++ header_rest)).
  rewrite Ht, startswith_hash. destruct (ascii_dec "#" "x"); [done|].
  unfold startswith at 1. cbn [String.prefix].
  destruct (ascii_dec "x" "x"); [|done].
  replace (String.prefix "" t) with true by (by destruct t).
  rewrite rle_lines_groups by done.
  destruct (run_groups groups (0%Z, 0%Z, [])) as [[row col] cells].
  by destruct cells.
Qed.

Lemma rle_file_parses_witness :
  parse_content
    (rle_file "3, y = 3"
       [[(None, DeadRun); (None, AliveRun); (None, EndOfRow);
         (Some 2%Z, DeadRun); (None, AliveRun); (None, EndOfRow);
         (Some 3%Z, AliveRun); (None, EndOfPattern)]]) "glider.rle"
  = match (run_groups
             [[(None, DeadRun); (None, AliveRun); (None, EndOfRow);
               (Some 2%Z, DeadRun); (None, AliveRun); (None, EndOfRow);
               (Some 3%Z, AliveRun); (None, EndOfPattern)]]
             (0%Z, 0%Z, [])).2 with
    | [] => Raise PatternParseError
    | cells => Ok (mkPattern "glider.rle" cells [] "rle")
    end.
Proof.
  apply (rle_file_parses "3, y = 3"
           [[(None, DeadRun); (None, AliveRun); (None, EndOfRow);
             (Some 2%Z, DeadRun); (None, AliveRun); (None, EndOfRow);
             (Some 3%Z, AliveRun); (None, EndOfPattern)]] "glider.rle");
    [reflexivity
    | repeat (apply Forall_cons_2 || apply Forall_nil_2);
        unfold counted; cbn [fst];
        (exact I || (split; [lia|vm_compute; discriminate]))].
Defined.
End RunLengthFiles.

(** ** The predefined patterns of the command line *)

Section PredefinedPatterns.
Local Open Scope string_scope.

(** The cells of the five patterns of [create_predefined_pattern]. *)
Definition Glider : list (Z * Z) := [(0, 1); (1, 2); (2, 0); (2, 1); (2, 2)]%Z.
Definition Blinker : list (Z * Z) := [(0, 0); (0, 1); (0, 2)]%Z.
Definition Toad : list (Z * Z) :=
  [(0, 1); (0, 2); (0, 3); (1, 0); (1, 1); (1, 2)]%Z.
Definition Beacon : list (Z * Z) :=
  [(0, 0); (0, 1); (1, 0); (2, 3); (3, 2); (3, 3)]%Z.
Definition Pulsar : list (Z * Z) :=
  [(0, 2); (0, 3); (0, 4); (0, 8); (0, 9); (0, 10);
   (2, 0); (2, 5); (2, 7); (2, 12);
   (3, 0); (3, 5); (3, 7); (3, 12);
   (4, 0); (4, 5); (4, 7); (4, 12);
   (5, 2); (5, 3); (5, 4); (5, 8); (5, 9); (5, 10);
   (7, 2); (7, 3); (7, 4); (7, 8); (7, 9); (7, 10);
   (8, 0); (8, 5); (8, 7); (8, 12);
   (9, 0); (9, 5); (9, 7); (9, 12);
   (10, 0); (10, 5); (10, 7); (10, 12);
   (12, 2); (12, 3); (12, 4); (12, 8); (12, 9); (12, 10)]%Z.

(** [for r, c in cells: board.set_cell(center_row + r, center_col + c, 1)] *)
Definition set_cells (board : ref) (center_row center_col : Z)
    (cells : list (Z * Z)) : M unit :=
  for_each cells (fun cell =>
    set_cell board (center_row + cell.1) (center_col + cell.2) 1).

(** [create_predefined_pattern] of game_main.py; [typed] is what the user
    types at the prompt.  What is printed is left out. *)
Definition create_predefined_pattern (board : ref) (typed : string) : M unit :=
  let choice := PatternParser.strip typed in
  board_height <- attr board height ;;
  let center_row := (board_height / 2)%Z in
  board_width <- attr board width ;;
  let center_col := (board_width / 2)%Z in
  if String.eqb choice "1" then set_cells board center_row center_col Glider
  else if String.eqb choice "2" then set_cells board center_row center_col Blinker
  else if String.eqb choice "3" then set_cells board center_row center_col Toad
  else if String.eqb choice "4" then set_cells board center_row center_col Beacon
  else if String.eqb choice "5" then
    for_each Pulsar (fun cell =>
      board_height <- attr board height ;;
      if (center_row + cell.1 <? board_height)%Z then
        board_width <- attr board width ;;
        if (center_col + cell.2 <? board_width)%Z then
          set_cell board (center_row + cell.1) (center_col + cell.2) 1
        else ret tt
      else ret tt)
  else ret tt.

(** The cells that go with a choice. *)
Definition predefined (choice : string) : list (Z * Z) :=
  if String.eqb choice "1" then Glider
  else if String.eqb choice "2" then Blinker
  else if String.eqb choice "3" then Toad
  else if String.eqb choice "4" then Beacon
  else if String.eqb choice "5" then Pulsar
  else [].

Lemma placed_cons b cell cells offset_row offset_col :
  placed b (cell :: cells) offset_row offset_col
  = placed (if in_bounds b (cell.1 + offset_row) (cell.2 + offset_col)
            then written b (cell.1 + offset_row) (cell.2 + offset_col) 1
            else b) cells offset_row offset_col.
Proof. reflexivity. Qed.

Lemma set_cells_eval cells center_row center_col board :
  ∀ (h : heap) b,
    h !! board = Some b → wf_board b →
    Forall (fun cell : Z * Z =>
              in_bounds b (center_row + cell.1) (center_col + cell.2) = true)
      cells →
    set_cells board center_row center_col cells h
    = (Ok tt, <[board := placed b cells center_row center_col]> h).
Proof.
  induction cells as [|cell cells IH]; intros h b Hb Hwf Hall.
  - unfold set_cells. simpl. by rewrite list_insert_id.
  - apply Forall_cons in Hall as [Hin Hall].
    unfold set_cells. cbn [for_each]. unfold bind at 1.
    rewrite (set_cell_eval _ _ b) by (done || by right).
    fold (set_cells board center_row center_col cells).
    rewrite (IH _ (written b (center_row + cell.1) (center_col + cell.2) 1)).
    + rewrite list_insert_insert_eq, placed_cons.
      by rewrite (Z.add_comm cell.1), (Z.add_comm cell.2), Hin.
    + apply list_lookup_insert_eq. by apply lookup_lt_Some in Hb.
    + apply wf_written; [done|by right].
    + eapply Forall_impl; [exact Hall|]. intros c Hc. simpl.
      by rewrite in_bounds_written.
Qed.

Lemma guarded_cells_eval cells center_row center_col board :
  (0 <= center_row)%Z → (0 <= center_col)%Z →
  Forall (fun cell : Z * Z => (0 <= cell.1 ∧ 0 <= cell.2)%Z) cells →
  ∀ (h : heap) b,
    h !! board = Some b → wf_board b →
    for_each cells (fun cell =>
      board_height <- attr board height ;;
      if (center_row + cell.1 <? board_height)%Z then
        board_width <- attr board width ;;
        if (center_col + cell.2 <? board_width)%Z then
          set_cell board (center_row + cell.1) (center_col + cell.2) 1
        else ret tt
      else ret tt) h
    = (Ok tt, <[board := placed b cells center_row center_col]> h).
Proof.
  intros Hrow Hcol. induction 1 as [|cell cells [Hr Hc] _ IH]; intros h b Hb Hwf.
  - simpl. by rewrite list_insert_id.
  - cbn [for_each]. rewrite placed_cons.
    rewrite (Z.add_comm cell.1), (Z.add_comm cell.2).
    unfold bind at 1. unfold bind at 1. rewrite (attr_eval _ _ b) by done.
    destruct (Z.ltb_spec (center_row + cell.1) (height b)) as [Hlt|Hge].
    + unfold bind at 1. rewrite (attr_eval _ _ b) by done.
      destruct (Z.ltb_spec (center_col + cell.2) (width b)) as [Hlt'|Hge'].
      * assert (Hin : in_bounds b (center_row + cell.1) (center_col + cell.2)
                      = true) by (apply in_bounds_iff; lia).
        rewrite Hin, (set_cell_eval _ _ b) by (done || by right).
        rewrite (IH _ (written b (center_row + cell.1) (center_col + cell.2) 1)).
        -- by rewrite list_insert_insert_eq.
        -- apply list_lookup_insert_eq. by apply lookup_lt_Some in Hb.
        -- apply wf_written; [done|by right].
      * rewrite (proj2 (in_bounds_false b _ _)) by lia.
        unfold ret at 1. by apply IH.
    + rewrite (proj2 (in_bounds_false b _ _)) by lia.
      unfold ret at 1. by apply IH.
Qed.
Ltac in_bounds_each :=
  repeat (apply Forall_cons_2 || apply Forall_nil_2);
  apply in_bounds_iff; cbn [fst snd];
  Z.to_euclidean_division_equations; lia.

(** The first four patterns fit a board of 7 by 7 or more, the pulsar one
    of 25 by 25 or more. *)
Lemma predefined_fits b choice :
  (7 <= width b)%Z → (7 <= height b)%Z →
  (choice = "5" → (25 <= height b ∧ 25 <= width b)%Z) →
  Forall (fun cell : Z * Z =>
            in_bounds b (height b / 2 + cell.1) (width b / 2 + cell.2) = true)
    (predefined choice).
Proof.
  intros Hw Hh Hpulsar. unfold predefined.
  destruct (String.eqb choice "1"); [unfold Glider; in_bounds_each|].
  destruct (String.eqb choice "2"); [unfold Blinker; in_bounds_each|].
  destruct (String.eqb choice "3"); [unfold Toad; in_bounds_each|].
  destruct (String.eqb choice "4"); [unfold Beacon; in_bounds_each|].
  destruct (String.eqb_spec choice "5") as [E5|_]; [|apply Forall_nil_2].
  destruct (Hpulsar E5). unfold Pulsar. in_bounds_each.
Qed.

Lemma create_predefined_pattern_eval (h : heap) board b typed :
  h !! board = Some b → wf_board b →
  (7 <= width b)%Z → (7 <= height b)%Z →
  create_predefined_pattern board typed h
  = (Ok tt,
     <[board := placed b (predefined (PatternParser.strip typed))
                  (height b / 2) (width b / 2)]> h).
Proof.
  intros Hb Hwf Hw Hh. unfold create_predefined_pattern.
  unfold bind at 1. rewrite (attr_eval _ _ b) by done.
  unfold bind at 1. rewrite (attr_eval _ _ b) by done.
  pose proof (predefined_fits b (PatternParser.strip typed) Hw Hh) as Hfits.
  unfold predefined in *.
  destruct (String.eqb_spec (PatternParser.strip typed) "1") as [E|_].
  { apply set_cells_eval; try done. apply Hfits. by rewrite E. }
  destruct (String.eqb_spec (PatternParser.strip typed) "2") as [E|_].
  { apply set_cells_eval; try done. apply Hfits. by rewrite E. }
  destruct (String.eqb_spec (PatternParser.strip typed) "3") as [E|_].
  { apply set_cells_eval; try done. apply Hfits. by rewrite E. }
  destruct (String.eqb_spec (PatternParser.strip typed) "4") as [E|_].
  { apply set_cells_eval; try done. apply Hfits. by rewrite E. }
  destruct (String.eqb_spec (PatternParser.strip typed) "5") as [E|_].
  - apply guarded_cells_eval; try done;
      try (Z.to_euclidean_division_equations; lia).
    unfold Pulsar. repeat (apply Forall_cons_2 || apply Forall_nil_2);
      cbn [fst snd]; lia.
  - unfold ret. by rewrite list_insert_id.
Qed.

(** X25.  [create_predefined_pattern] on a well-formed board of 7 by 7 or
    more, as are all the boards the command line makes (10 to 100 each
    way): the call returns, whatever is typed.  Afterwards a cell is ALIVE
    exactly if it was before or it lies on the board and is a cell of the
    pattern chosen, counted from the middle of the board (half the height
    and half the width, rounded down); anything typed other than 1 to 5,
    white space around it aside, leaves the board as it was.  Dimensions and
    generation are kept.  Glider, blinker, toad and beacon are always placed
    whole; the pulsar is placed whole exactly if the board is 25 by 25 or
    more, and on a smaller board the cells that fall outside are left out
    without a word. *)
Theorem create_predefined_pattern_places (h : heap) (board : ref) (b : Board)
    (typed : string) :
  h !! board = Some b → wf_board b →
  (7 <= width b)%Z → (7 <= height b)%Z →
  ∃ b',
    create_predefined_pattern board typed h = (Ok tt, <[board := b']> h)
    ∧ wf_board b' ∧ width b' = width b ∧ height b' = height b
    ∧ generation b' = generation b
    ∧ (∀ row col,
         cell b' row col = 1%Z
         ↔ cell b row col = 1%Z
           ∨ ((0 <= row < height b)%Z ∧ (0 <= col < width b)%Z
              ∧ ((row - height b / 2)%Z, (col - width b / 2)%Z)
                ∈ predefined (PatternParser.strip typed)))
    ∧ ((∀ r c, (r, c) ∈ predefined (PatternParser.strip typed) →
               cell b' (height b / 2 + r) (width b / 2 + c) = 1%Z)
       ↔ (PatternParser.strip typed = "5"
          → (25 <= height b ∧ 25 <= width b)%Z)).
Proof.
  intros Hb Hwf Hw Hh.
  exists (placed b (predefined (PatternParser.strip typed))
            (height b / 2) (width b / 2)).
  destruct (placed_spec b (predefined (PatternParser.strip typed))
              (height b / 2) (width b / 2) Hwf)
    as (Hwf' & Hw' & Hh' & Hg' & Hcells).
  split; [by apply create_predefined_pattern_eval|].
  do 4 (split; [done|]). split.
  { intros row col. rewrite Hcells, in_bounds_iff. tauto. }
  split.
  - intros Hall E5. rewrite E5 in Hall, Hw', Hh'.
    assert (Hin : ∀ r c, (r, c) ∈ Pulsar →
              in_bounds b (height b / 2 + r) (width b / 2 + c) = true).
    { intros r c Hrc. specialize (Hall r c Hrc). unfold cell in Hall.
      destruct (in_bounds _ (height b / 2 + r) (width b / 2 + c)) eqn:Hin;
        [|done].
      apply in_bounds_iff in Hin. apply in_bounds_iff.
      by rewrite Hw', Hh' in Hin. }
    pose proof (Hin 12%Z 2%Z) as H1. pose proof (Hin 2%Z 12%Z) as H2.
    rewrite in_bounds_iff in H1, H2.
    unfold Pulsar in H1, H2. rewrite !elem_of_cons in H1, H2.
    assert (H12 : (0 <= height b / 2 + 12 < height b)%Z) by (apply H1; tauto).
    assert (H21 : (0 <= width b / 2 + 12 < width b)%Z) by (apply H2; tauto).
    clear -H12 H21. Z.to_euclidean_division_equations. lia.
  - intros Hpulsar r c Hrc.
    pose proof (predefined_fits b (PatternParser.strip typed) Hw Hh Hpulsar)
      as Hfits.
    apply Hcells. right. split.
    + exact (proj1 (Forall_forall _ _) Hfits (r, c) Hrc).
    + by replace (height b / 2 + r - height b / 2)%Z with r by lia;
        replace (width b / 2 + c - width b / 2)%Z with c by lia.
Qed.

Lemma create_predefined_pattern_places_witness :
  ∃ b',
    create_predefined_pattern 0%nat " 1 " [zeros 10 10]
    = (Ok tt, <[0%nat := b']> [zeros 10 10])
    ∧ wf_board b' ∧ width b' = width (zeros 10 10)
    ∧ height b' = height (zeros 10 10)
    ∧ generation b' = generation (zeros 10 10)
    ∧ (∀ row col,
         cell b' row col = 1%Z
         ↔ cell (zeros 10 10) row col = 1%Z
           ∨ ((0 <= row < height (zeros 10 10))%Z
              ∧ (0 <= col < width (zeros 10 10))%Z
              ∧ ((row - height (zeros 10 10) / 2)%Z,
                 (col - width (zeros 10 10) / 2)%Z)
                ∈ predefined (PatternParser.strip " 1 ")))
    ∧ ((∀ r c, (r, c) ∈ predefined (PatternParser.strip " 1 ") →
               cell b' (height (zeros 10 10) / 2 + r)
                 (width (zeros 10 10) / 2 + c) = 1%Z)
       ↔ (PatternParser.strip " 1 " = "5"
          → (25 <= height (zeros 10 10) ∧ 25 <= width (zeros 10 10))%Z)).
Proof.
  apply (create_predefined_pattern_places [zeros 10 10] 0%nat (zeros 10 10) " 1 ");
    [reflexivity | check_wf | simpl; lia | simpl; lia].
Defined.
End PredefinedPatterns.

(** ** The name and the comments of a saved board *)

Section SavedHeader.
Import PatternParser.
Local Open Scope string_scope.














(** C3.  The round trip does not give the coordinates back.  The blinker
    of the tests, 5 by 5 with its live cells at rows 1 to 3 of column 2, is
    saved without name and comments; [save_pattern] writes three header lines
    before the rows, in the form that [_parse_plaintext] itself takes for
    comments, and [_parse_plaintext] numbers rows by line of the file, header
    lines included: the cells come back at rows 4 to 6. *)
Theorem save_then_parse_moves_rows :
  ∃ text,
    save_pattern_file "blinker.txt" 0%nat None None (mkWorld [] [] [blinker])
    = (Returned tt, mkWorld [("blinker.txt", text)] [] [blinker])
    ∧ _parse_plaintext (read_text text) "blinker.txt"
      = Ok (mkPattern "blinker.txt" [(4, 2); (5, 2); (6, 2)]%Z
              ["Generation: 0"; "Alive cells: 3"; ""] "plaintext")
    ∧ ∀ r c, cell blinker r c = 1%Z ↔ (r, c) ∈ [(1, 2); (2, 2); (3, 2)]%Z.
Proof.
  eexists. split; [vm_compute; reflexivity|]. split; [vm_compute; reflexivity|].
  intros r c.
  rewrite <- (Z.sub_0_r r) at 1.
  rewrite <- (elem_of_grid_live_cell blinker 0 r c) by check_wf.
  reflexivity.
Qed.
End SavedHeader.
